(** * A shallow embedding of the calculator component

    Source: [calculator_frontend/src/components/Calculator.jsx].

    The component keeps five pieces of React state and changes them in six
    handlers ([onClear], [onBackspace], [onDigit], [onDecimal], [onOperator],
    [onEquals]); the text it shows is the memo [displayValue].  The handlers
    are embedded as functions from state to state, the helpers
    ([sanitizeNumberString], [compute]) as functions on strings.

    The helpers call built-ins of the language ([parseFloat], [Number],
    [String], [toPrecision], [String.prototype.replace], ...).  Module [JS]
    gives these an executable meaning after ECMA-262: a Number is an IEEE 754
    binary64 value ([spec_float] at precision 53), a string is a sequence of
    code units. *)

From Stdlib Require Import ZArith NArith PArith Bool List Lia.
From Stdlib Require Import Ascii String.
From Stdlib Require Import SpecFloat.
From Stdlib Require Import DecimalString DecimalPos DecimalFacts.
Import ListNotations.

Local Open Scope string_scope.

(* ================================================================== *)
(** * The built-ins of the language                                     *)
(* ================================================================== *)

Module JS.

(** ** Strings

    A string is a [string] of the Standard Library, one [ascii] per code
    unit: the model covers the strings whose code units are below 256
    (Latin-1).  Every string the component builds is of that kind, the two
    operator signs included: the multiplication sign is U+00D7 and the
    division sign is U+00F7, one code unit each. *)

Definition MULTIPLICATION_SIGN : string := String "215"%char EmptyString.
Definition DIVISION_SIGN : string := String "247"%char EmptyString.

(** [s1 === s2] on strings. *)
Definition str_eq (s1 s2 : string) : bool := String.eqb s1 s2.

(** [strip p s]: what follows [p] in [s], when [s] starts with [p]. *)
Fixpoint strip (p s : string) : option string :=
  match p, s with
  | EmptyString, _ => Some s
  | String a p', String b s' => if Ascii.eqb b a then strip p' s' else None
  | String _ _, EmptyString => None
  end.

(** [s.startsWith(p)]. *)
Definition startsWith (s p : string) : bool :=
  match strip p s with
  | Some _ => true
  | None => false
  end.

(** [String.rev] is not in the library: reverse through lists. *)
Definition rev_string (s : string) : string :=
  string_of_list_ascii (List.rev (list_ascii_of_string s)).

(** [s.endsWith(p)]. *)
Definition endsWith (s p : string) : bool :=
  startsWith (rev_string s) (rev_string p).

(** [s.includes(c)] for a one-unit string [c]. *)
Fixpoint includes_char (s : string) (c : ascii) : bool :=
  match s with
  | EmptyString => false
  | String a r => Ascii.eqb a c || includes_char r c
  end.

(** [s.slice(0, -1)]: all but the last code unit (the empty string stays
    empty). *)
Fixpoint slice_0_m1 (s : string) : string :=
  match s with
  | EmptyString => EmptyString
  | String _ EmptyString => EmptyString
  | String a r => String a (slice_0_m1 r)
  end.

(** [n] copies of the code unit [c]. *)
Fixpoint repeat_char (c : ascii) (n : nat) : string :=
  match n with
  | O => EmptyString
  | S n' => String c (repeat_char c n')
  end.

(** ** Numbers *)

Definition number : Type := spec_float.

Definition prec : Z := 53.
Definition emax : Z := 1024.

Definition NaN : number := S754_nan.
Definition pos_zero : number := S754_zero false.

Definition add : number -> number -> number := SFadd prec emax.
Definition sub : number -> number -> number := SFsub prec emax.
Definition mul : number -> number -> number := SFmul prec emax.
Definition div : number -> number -> number := SFdiv prec emax.

(** [Number.isNaN(x)]. *)
Definition isNaN (x : number) : bool :=
  match x with
  | S754_nan => true
  | _ => false
  end.

(** [x === y] on Numbers: numeric equality, false on NaN, true on the two
    zeros. *)
Definition num_eq (x y : number) : bool := SFeqb x y.

(** The Number for the real [n / d], sign [neg]: the quotient of two
    integers rounded to nearest, ties to even.  [SFdiv] shifts the dividend
    until the integer quotient has the bits of a mantissa, keeps the
    remainder as the rounding position and rounds once; nothing in it asks
    the two integers to be mantissas of binary64 values, so they can be of
    any size. *)
Definition round_ratio (neg : bool) (n d : positive) : number :=
  SFdiv prec emax (S754_finite neg n 0) (S754_finite false d 0).

(** The Number for [m * 10^e] with [0 <= m], sign [neg]: the value of a
    decimal literal, rounded once from its exact value (ECMA-262 lets an
    implementation drop the digits after the twentieth; the engines round
    the exact value, and so does this definition). *)
Definition decimal_value (neg : bool) (m e : Z) : number :=
  match m with
  | Zpos p =>
      if (0 <=? e)%Z
      then round_ratio neg (p * Z.to_pos (10 ^ e)) 1
      else round_ratio neg p (Z.to_pos (10 ^ (- e)))
  | _ => S754_zero neg
  end.

(** ** Numeric literals in strings (ECMA-262, StringNumericLiteral) *)

Definition code (c : ascii) : N := N_of_ascii c.

Definition is_digit (c : ascii) : bool :=
  ((48 <=? code c) && (code c <=? 57))%N.

Definition digit_value (c : ascii) : Z := Z.of_N (code c) - 48.

(** StrWhiteSpaceChar below U+0100: TAB, LF, VT, FF, CR, SP, NBSP. *)
Definition is_white_space (c : ascii) : bool :=
  let n := code c in
  ((9 <=? n) && (n <=? 13) || (n =? 32) || (n =? 160))%N.

Fixpoint trim_start (s : string) : string :=
  match s with
  | String c r => if is_white_space c then trim_start r else s
  | EmptyString => s
  end.

Definition trim (s : string) : string :=
  rev_string (trim_start (rev_string (trim_start s))).

(** DecimalDigits at the head of [s]: the digits read so far are the number
    [acc], [n] counts them; returns the number, the count and the rest. *)
Fixpoint scan_digits (s : string) (acc : Z) (n : nat) : Z * nat * string :=
  match s with
  | String c r =>
      if is_digit c then scan_digits r (10 * acc + digit_value c) (S n)
      else (acc, n, s)
  | EmptyString => (acc, n, s)
  end.

(** An optional sign at the head of [s]: [true] for a minus. *)
Definition scan_sign (s : string) : bool * string :=
  match s with
  | String c r =>
      if Ascii.eqb c "-" then (true, r)
      else if Ascii.eqb c "+" then (false, r)
      else (false, s)
  | EmptyString => (false, s)
  end.

(** An optional ExponentPart at the head of [s]: its value (0 when there is
    none) and the rest.  An [e] that no digit follows is not part of the
    literal. *)
Definition scan_exponent (s : string) : Z * string :=
  match s with
  | String c r =>
      if Ascii.eqb c "e" || Ascii.eqb c "E" then
        let '(neg, r1) := scan_sign r in
        let '(v, n, r2) := scan_digits r1 0 0 in
        match n with
        | O => (0%Z, s)
        | S _ => ((if neg then - v else v)%Z, r2)
        end
      else (0%Z, s)
  | EmptyString => (0%Z, s)
  end.

(** What a StrDecimalLiteral denotes. *)
Inductive literal : Type :=
  | LitInfinity (neg : bool)
  | LitDecimal (neg : bool) (m : Z) (e : Z).

(** The longest StrDecimalLiteral at the head of [s], with the rest of [s]. *)
Definition scan_decimal (s : string) : option (literal * string) :=
  let '(neg, s1) := scan_sign s in
  match strip "Infinity" s1 with
  | Some r => Some (LitInfinity neg, r)
  | None =>
      let '(i, ni, s2) := scan_digits s1 0 0 in
      match s2 with
      | String "."%char s3 =>
          let '(m, nf, s4) := scan_digits s3 i 0 in
          match ni, nf with
          | O, O => None
          | _, _ =>
              let '(e, s5) := scan_exponent s4 in
              Some (LitDecimal neg m (e - Z.of_nat nf), s5)
          end
      | _ =>
          match ni with
          | O => None
          | S _ =>
              let '(e, s5) := scan_exponent s2 in
              Some (LitDecimal neg i e, s5)
          end
      end
  end.

Definition literal_value (l : literal) : number :=
  match l with
  | LitInfinity neg => S754_infinity neg
  | LitDecimal neg m e => decimal_value neg m e
  end.

(** [parseFloat(s)]: leading white space is skipped, the longest prefix
    that is a StrDecimalLiteral is read, what follows it is ignored. *)
Definition parseFloat (s : string) : number :=
  match scan_decimal (trim_start s) with
  | Some (l, _) => literal_value l
  | None => NaN
  end.

(** The digits of a NonDecimalIntegerLiteral in base [b]. *)
Definition digit_in_base (b : Z) (c : ascii) : option Z :=
  let n := Z.of_N (code c) in
  let v :=
    (if is_digit c then n - 48
     else if (97 <=? n) && (n <=? 102) then n - 87
     else if (65 <=? n) && (n <=? 70) then n - 55
     else b)%Z in
  if (v <? b)%Z then Some v else None.

Fixpoint scan_base (b : Z) (s : string) (acc : Z) : option Z :=
  match s with
  | EmptyString => Some acc
  | String c r =>
      match digit_in_base b c with
      | Some v => scan_base b r (b * acc + v)
      | None => None
      end
  end.

Definition non_decimal (s : string) : option Z :=
  match s with
  | String "0"%char (String c (String d r)) =>
      let digits := String d r in
      if Ascii.eqb c "x" || Ascii.eqb c "X" then scan_base 16 digits 0
      else if Ascii.eqb c "o" || Ascii.eqb c "O" then scan_base 8 digits 0
      else if Ascii.eqb c "b" || Ascii.eqb c "B" then scan_base 2 digits 0
      else None
  | _ => None
  end.

(** [Number(s)] on a string (StringToNumber): white space is trimmed at
    both ends, the empty string is [+0], the whole of what is left has to be
    one literal. *)
Definition Number (s : string) : number :=
  let t := trim s in
  match t with
  | EmptyString => pos_zero
  | _ =>
      match non_decimal t with
      | Some v => decimal_value false v 0
      | None =>
          match scan_decimal t with
          | Some (l, EmptyString) => literal_value l
          | _ => NaN
          end
      end
  end.

(** ** Numbers to strings (ECMA-262, Number::toString at radix 10) *)

(** The value of the positive finite Number [m * 2^e] as a fraction of two
    positive integers. *)
Definition fraction_of (m : positive) (e : Z) : Z * Z :=
  if (0 <=? e)%Z then (Zpos m * 2 ^ e, 1)%Z else (Zpos m, 2 ^ (- e))%Z.

(** The fraction [x / 10^t]. *)
Definition scale10 (x : Z * Z) (t : Z) : Z * Z :=
  if (0 <=? t)%Z then (fst x, snd x * 10 ^ t)%Z
  else (fst x * 10 ^ (- t), snd x)%Z.

(** [10^(n-1) <= x < 10^n]. *)
Definition in_decade (x : Z * Z) (n : Z) : bool :=
  let y := scale10 x (n - 1) in
  let q := (fst y / snd y)%Z in
  ((1 <=? q) && (q <? 10))%Z.

(** The [n] with [10^(n-1) <= x < 10^n].  The binary logarithms of the two
    parts of [x] place its decimal logarithm within one unit of [g]
    (1233/4096 is log10 2 to five places), so [n] is looked for around [g]. *)
Definition decade (x : Z * Z) : Z :=
  let g := ((Z.log2 (fst x) - Z.log2 (snd x)) * 1233 / 4096)%Z in
  match List.find (in_decade x) [g; g + 1; g + 2; g - 1; g + 3]%Z with
  | Some n => n
  | None => g
  end.

(** Is [m * 2^e] the Number for the decimal [c * 10^t] ? *)
Definition rounds_to (m : positive) (e : Z) (c t : Z) : bool :=
  match decimal_value false c t with
  | S754_finite _ m' e' => Pos.eqb m m' && Z.eqb e e'
  | _ => false
  end.

(** The decimal expansion of [m * 2^e] in full, as digits [s] and the
    exponent [t] of the last of them: [m * 2^e = s * 10^t]. *)
Definition exact_decimal (m : positive) (e : Z) : Z * Z :=
  if (0 <=? e)%Z then (Zpos m * 2 ^ e, 0)%Z else (Zpos m * 5 ^ (- e), e)%Z.

(** The shortest decimal [s * 10^t] whose Number is [m * 2^e]; among the
    shortest, the one nearest to it; of two equally near, the even one.
    With the last digit at exponent [t], only the two multiples of [10^t]
    around [x] can do: [q] below and [q + 1] above.  The search starts with
    one digit and adds a digit at a time; 17 digits always tell a binary64
    value from its neighbours, so the expansion in full after 17 rounds is
    never reached. *)
Fixpoint shortest (fuel : nat) (m : positive) (e : Z) (x : Z * Z) (t : Z)
  : Z * Z :=
  match fuel with
  | O => exact_decimal m e
  | S fuel' =>
      let y := scale10 x t in
      let q := (fst y / snd y)%Z in
      let r := (fst y mod snd y)%Z in
      let below := rounds_to m e q t in
      let above := rounds_to m e (q + 1) t in
      let nearer_above :=
        ((snd y <? 2 * r) || ((snd y =? 2 * r) && Z.odd q))%Z in
      if below && above then
        if nearer_above then ((q + 1)%Z, t) else (q, t)
      else if below then (q, t)
      else if above then ((q + 1)%Z, t)
      else shortest fuel' m e x (t - 1)
  end.

(** Trailing zeros of [s] move into the exponent ([s] is not divisible by
    10 in the standard's words). *)
Fixpoint strip_zeros (fuel : nat) (s t : Z) : Z * Z :=
  match fuel with
  | O => (s, t)
  | S fuel' =>
      if ((0 <? s) && (s mod 10 =? 0))%Z
      then strip_zeros fuel' (s / 10)%Z (t + 1)%Z
      else (s, t)
  end.

(** The decimal digits of a natural number. *)
Definition digits_of (s : Z) : string :=
  NilEmpty.string_of_uint (N.to_uint (Z.to_N s)).

(** [s.substring(i, i + n)]. *)
Definition sub_string (i n : Z) (s : string) : string :=
  String.substring (Z.to_nat i) (Z.to_nat n) s.

(** The text for the digits [ds] (there are [k] of them) of a positive
    Number with its decimal point after the [n]th digit. *)
Definition format_decimal (ds : string) (n : Z) : string :=
  let k := Z.of_nat (String.length ds) in
  if ((k <=? n) && (n <=? 21))%Z then
    ds ++ repeat_char "0" (Z.to_nat (n - k))
  else if ((0 <? n) && (n <=? 21))%Z then
    sub_string 0 n ds ++ "." ++ sub_string n (k - n) ds
  else if ((-6 <? n) && (n <=? 0))%Z then
    "0." ++ repeat_char "0" (Z.to_nat (- n)) ++ ds
  else
    let e := (n - 1)%Z in
    let exponent :=
      (if (e <? 0)%Z then "-" else "+") ++ digits_of (Z.abs e) in
    if (k =? 1)%Z then ds ++ "e" ++ exponent
    else sub_string 0 1 ds ++ "." ++ sub_string 1 (k - 1) ds
         ++ "e" ++ exponent.

(** The text of a positive finite Number. *)
Definition positive_toString (m : positive) (e : Z) : string :=
  let x := fraction_of m e in
  let '(s0, t0) := shortest 17 m e x (decade x - 1) in
  let '(s, t) := strip_zeros 400 s0 t0 in
  let ds := digits_of s in
  format_decimal ds (t + Z.of_nat (String.length ds)).

(** [String(x)] on a Number. *)
Definition toString (x : number) : string :=
  match x with
  | S754_nan => "NaN"
  | S754_zero _ => "0"
  | S754_infinity neg => if neg then "-Infinity" else "Infinity"
  | S754_finite neg m e =>
      (if neg then "-" else EmptyString) ++ positive_toString m e
  end.

(** ** [Number.prototype.toPrecision] *)

(** The [p] digits [n] and the exponent [e] of the first of them for which
    [n * 10^(e-p+1)] is nearest to [x]; of two equally near, the larger. *)
Definition precision_digits (p : Z) (x : Z * Z) : Z * Z :=
  let e := (decade x - 1)%Z in
  let y := scale10 x (e - p + 1) in
  let q := (fst y / snd y)%Z in
  let r := (fst y mod snd y)%Z in
  let n := (if (snd y <=? 2 * r)%Z then q + 1 else q)%Z in
  if (n =? 10 ^ p)%Z then ((10 ^ (p - 1))%Z, (e + 1)%Z) else (n, e).

(** [x.toPrecision(p)] for [1 <= p <= 100]. *)
Definition toPrecision (x : number) (p : Z) : string :=
  match x with
  | S754_nan | S754_infinity _ => toString x
  | S754_zero _ =>
      if (p =? 1)%Z then "0"
      else "0." ++ repeat_char "0" (Z.to_nat (p - 1))
  | S754_finite neg m e0 =>
      let sign := if neg then "-" else EmptyString in
      let '(n, e) := precision_digits p (fraction_of m e0) in
      let ds := digits_of n in
      if ((e <? -6) || (p <=? e))%Z then
        let mant :=
          if (p =? 1)%Z then ds
          else sub_string 0 1 ds ++ "." ++ sub_string 1 (p - 1) ds in
        sign ++ mant ++ "e" ++ (if (0 <? e)%Z then "+" else "-")
             ++ digits_of (Z.abs e)
      else if (e =? p - 1)%Z then sign ++ ds
      else if (0 <=? e)%Z then
        sign ++ sub_string 0 (e + 1) ds ++ "."
             ++ sub_string (e + 1) (p - (e + 1)) ds
      else
        sign ++ "0." ++ repeat_char "0" (Z.to_nat (- (e + 1))) ++ ds
  end.

(** ** [s.replace(/\.?0+$/, empty)]

    The pattern takes the zeros that end [s], at least one, and a point
    right before them when there is one; the match that starts leftmost is
    the one with all of them.  Without a zero at the end nothing matches and
    [s] is returned as it is. *)
Fixpoint drop_zeros (l : list ascii) : list ascii :=
  match l with
  | c :: r => if Ascii.eqb c "0" then drop_zeros r else l
  | [] => []
  end.

Definition replace_trailing_zeros (s : string) : string :=
  let l := List.rev (list_ascii_of_string s) in
  match l with
  | c :: _ =>
      if Ascii.eqb c "0" then
        match drop_zeros l with
        | d :: r =>
            if Ascii.eqb d "." then string_of_list_ascii (List.rev r)
            else string_of_list_ascii (List.rev (d :: r))
        | [] => EmptyString
        end
      else s
  | [] => s
  end.

End JS.

(* ================================================================== *)
(** * The component                                                     *)
(* ================================================================== *)

Module Calculator.

Import JS.

(** The five [useState] cells of the component.  [null] is [None]. *)
Record State : Type := mkState {
  currentValue : string;
  previousValue : option string;
  operator : option string;
  overwrite : bool;
  error : bool
}.

(** The state after the first render: the initial values given to
    [useState]. *)
Definition initial : State :=
  {| currentValue := "0"; previousValue := None; operator := None;
     overwrite := false; error := false |}.

Definition sanitizeNumberString (str : string) : string :=
  if str_eq str EmptyString then "0"
  else if str_eq str "0" then "0"
  else if startsWith str "0" && negb (startsWith str "0.")
          && (1 <? String.length str)%nat
  then toString (Number str)
  else str.

Definition compute (aStr bStr op : string) : string :=
  let a := parseFloat aStr in
  let b := parseFloat bStr in
  if isNaN a || isNaN b then "0"
  else if str_eq op "+" then toString (add a b)
  else if str_eq op "-" then toString (sub a b)
  else if str_eq op MULTIPLICATION_SIGN then toString (mul a b)
  else if str_eq op DIVISION_SIGN then
    if num_eq b pos_zero then "Error" else toString (div a b)
  else bStr.

(** A handler runs to its end before the next event is handled, and the
    component is rendered again in between: the cells a handler reads are
    the ones the handler before it wrote.  Each handler is a function on
    [State]; a cell it does not set keeps its value. *)

Definition resetAll (s : State) : State :=
  {| currentValue := "0"; previousValue := None; operator := None;
     overwrite := false; error := false |}.

Definition onClear (s : State) : State := resetAll s.

Definition onBackspace (s : State) : State :=
  if error s then resetAll s
  else if overwrite s then
    {| currentValue := "0"; previousValue := previousValue s;
       operator := operator s; overwrite := false; error := error s |}
  else
    let val := currentValue s in
    let val' :=
      if (String.length val <=? 1)%nat then "0"
      else
        let next := slice_0_m1 val in
        if str_eq next "-" then "0" else next in
    {| currentValue := val'; previousValue := previousValue s;
       operator := operator s; overwrite := overwrite s; error := error s |}.

(** [d] is the string of the key ("0" to "9"), so [String(d)] is [d]. *)
Definition onDigit (d : string) (s : State) : State :=
  if error s then
    {| currentValue := d; previousValue := None; operator := None;
       overwrite := false; error := false |}
  else if overwrite s then
    {| currentValue := d; previousValue := previousValue s;
       operator := operator s; overwrite := false; error := error s |}
  else
    let val := currentValue s in
    let next := if str_eq val "0" then d else val ++ d in
    {| currentValue := sanitizeNumberString next;
       previousValue := previousValue s; operator := operator s;
       overwrite := overwrite s; error := error s |}.

Definition onDecimal (s : State) : State :=
  if error s then
    {| currentValue := "0."; previousValue := None; operator := None;
       overwrite := false; error := false |}
  else if overwrite s then
    {| currentValue := "0."; previousValue := previousValue s;
       operator := operator s; overwrite := false; error := error s |}
  else
    let val := currentValue s in
    let val' := if includes_char val "." then val else val ++ "." in
    {| currentValue := val'; previousValue := previousValue s;
       operator := operator s; overwrite := overwrite s; error := error s |}.

(** The state both [onOperator] and [onEquals] set when [compute] returns
    "Error". *)
Definition errorState : State :=
  {| currentValue := "Error"; previousValue := None; operator := None;
     overwrite := true; error := true |}.

Definition onOperator (op : string) (s : State) : State :=
  if error s then s
  else
    match previousValue s, operator s, overwrite s with
    | Some prev, Some o, false =>
        let result := compute prev (currentValue s) o in
        if str_eq result "Error" then errorState
        else
          {| currentValue := result; previousValue := Some result;
             operator := Some op; overwrite := true; error := error s |}
    | _, _, _ =>
        {| currentValue := currentValue s;
           previousValue := Some (currentValue s);
           operator := Some op; overwrite := true; error := error s |}
    end.

Definition onEquals (s : State) : State :=
  if error s then resetAll s
  else
    match previousValue s, operator s with
    | Some prev, Some o =>
        let result := compute prev (currentValue s) o in
        if str_eq result "Error" then errorState
        else
          {| currentValue := result; previousValue := None;
             operator := None; overwrite := true; error := error s |}
    | _, _ => s
    end.

Definition displayValue (s : State) : string :=
  if error s then "Error"
  else
    let val := currentValue s in
    if endsWith val "." then val
    else
      let val := sanitizeNumberString val in
      if (14 <? String.length val)%nat then
        let num := Number val in
        if negb (isNaN num) then replace_trailing_zeros (toPrecision num 10)
        else val
      else val.

(** [isOperatorActive[op]]. *)
Definition isOperatorActive (s : State) (op : string) : bool :=
  match operator s with
  | Some o => str_eq o op
  | None => false
  end.

(** ** The keys of the keypad *)

Inductive Digit : Type := D0 | D1 | D2 | D3 | D4 | D5 | D6 | D7 | D8 | D9.

Definition digit_string (d : Digit) : string :=
  match d with
  | D0 => "0" | D1 => "1" | D2 => "2" | D3 => "3" | D4 => "4"
  | D5 => "5" | D6 => "6" | D7 => "7" | D8 => "8" | D9 => "9"
  end.

Inductive OperatorSign : Type := Plus | Minus | Times | Divide.

Definition sign_string (o : OperatorSign) : string :=
  match o with
  | Plus => "+"
  | Minus => "-"
  | Times => MULTIPLICATION_SIGN
  | Divide => DIVISION_SIGN
  end.

(** One constructor per kind of button in the grid the component renders
    (and per kind of key [onKeyDown] maps to a handler). *)
Inductive Key : Type :=
  | KDigit (d : Digit)
  | KDecimal
  | KOperator (o : OperatorSign)
  | KEquals
  | KBackspace
  | KClear.

Definition press (s : State) (k : Key) : State :=
  match k with
  | KDigit d => onDigit (digit_string d) s
  | KDecimal => onDecimal s
  | KOperator o => onOperator (sign_string o) s
  | KEquals => onEquals s
  | KBackspace => onBackspace s
  | KClear => onClear s
  end.

(** The state after the keys [ks], pressed in order from [s]. *)
Definition run (s : State) (ks : list Key) : State := List.fold_left press ks s.

(** The states the component can be in. *)
Inductive reachable : State -> Prop :=
  | reachable_initial : reachable initial
  | reachable_press s k : reachable s -> reachable (press s k).

(** ** The keyboard

    [onKeyDown(e)], by the string [e.key]: the state after the handler it
    calls, and whether [e.preventDefault()] was called.  [>=] and [<=] on
    strings compare code unit by code unit, a proper prefix being smaller:
    this is [String.leb]. *)
Definition onKeyDown (key : string) (s : State) : State * bool :=
  if String.leb "0" key && String.leb key "9" then (onDigit key s, true)
  else if str_eq key "." || str_eq key "," then (onDecimal s, true)
  else if str_eq key "+" || str_eq key "-" then (onOperator key s, true)
  else if str_eq key "*" then (onOperator MULTIPLICATION_SIGN s, true)
  else if str_eq key "/" then (onOperator DIVISION_SIGN s, true)
  else if str_eq key "Enter" || str_eq key "=" then (onEquals s, true)
  else if str_eq key "Backspace" then (onBackspace s, true)
  else if str_eq key "Escape" then (onClear s, true)
  else (s, false).

(** ** The grid of buttons

    The [KeyButton] elements the component renders, in their order, each
    with three of its properties: the [title] attribute it gets (the
    [title] property, or the label when none is given), the [ariaPressed]
    property (false when it is not given) and the [onClick] handler.  The
    label, the variant and the column span only style the button. *)
Record Button : Type := mkButton {
  title : string;
  ariaPressed : State -> bool;
  onClick : State -> State
}.

Definition not_pressed (s : State) : bool := false.

Definition keypad : list Button :=
  [ mkButton "Clear" not_pressed onClear;
    mkButton "Backspace" not_pressed onBackspace;
    mkButton "Divide"
      (fun s => isOperatorActive s DIVISION_SIGN) (onOperator DIVISION_SIGN);
    mkButton "Multiply"
      (fun s => isOperatorActive s MULTIPLICATION_SIGN)
      (onOperator MULTIPLICATION_SIGN);
    mkButton "7" not_pressed (onDigit "7");
    mkButton "8" not_pressed (onDigit "8");
    mkButton "9" not_pressed (onDigit "9");
    mkButton "Subtract" (fun s => isOperatorActive s "-") (onOperator "-");
    mkButton "4" not_pressed (onDigit "4");
    mkButton "5" not_pressed (onDigit "5");
    mkButton "6" not_pressed (onDigit "6");
    mkButton "Add" (fun s => isOperatorActive s "+") (onOperator "+");
    mkButton "1" not_pressed (onDigit "1");
    mkButton "2" not_pressed (onDigit "2");
    mkButton "3" not_pressed (onDigit "3");
    mkButton "Equals" not_pressed onEquals;
    mkButton "0" not_pressed (onDigit "0");
    mkButton "Decimal" not_pressed onDecimal ].

(** The two pending cells are set together. *)
Definition paired (s : State) : Prop :=
  operator s <> None <-> previousValue s <> None.

(** The keys that only edit the entry. *)
Definition entry_key (k : Key) : bool :=
  match k with
  | KDigit _ | KDecimal => true
  | _ => false
  end.

(** How many times the code unit [c] occurs in [s]. *)
Fixpoint count_char (s : string) (c : ascii) : nat :=
  match s with
  | EmptyString => O
  | String a r => (if Ascii.eqb a c then 1 else 0) + count_char r c
  end.

(** The four signs [compute] has a case for. *)
Definition known_operator (op : string) : bool :=
  str_eq op "+" || str_eq op "-" || str_eq op MULTIPLICATION_SIGN
  || str_eq op DIVISION_SIGN.

(** A first code unit that is not "0". *)
Definition leading_nonzero (s : string) : bool :=
  match s with
  | EmptyString => false
  | String c _ => negb (Ascii.eqb c "0")
  end.

(** The entries [sanitizeNumberString] returns as they are: not empty, and
    with a first "0" either alone or followed by the point. *)
Definition plain (s : string) : bool :=
  match s with
  | EmptyString => false
  | String c r =>
      negb (Ascii.eqb c "0")
      || match r with
         | EmptyString => true
         | String d _ => Ascii.eqb d "."
         end
  end.

End Calculator.

(* ================================================================== *)
(** * States and predicates the properties are stated with              *)
(* ================================================================== *)

Import JS Calculator.

(** The state after 5, the division sign, 0 and the equals key. *)
Definition five_by_zero : State :=
  run initial [KDigit D5; KOperator Divide; KDigit D0; KEquals].

(** The state after 5, the division sign and 0. *)
Definition five_by_zero_pending : State :=
  run initial [KDigit D5; KOperator Divide; KDigit D0].

(** An entry no key sequence produces: a leading zero before an exponent. *)
Definition zero_led_exponent : State :=
  {| currentValue := "01e20"; previousValue := None; operator := None;
     overwrite := false; error := false |}.

(** What the digit and decimal keys keep, from the initial state on: no
    error, nothing to overwrite, a plain entry with at most one point. *)
Definition entering (s : State) : Prop :=
  error s = false /\ overwrite s = false /\
  plain (currentValue s) = true /\
  (count_char (currentValue s) "." <= 1)%nat.

(** The text of the digit keys [ds], in order. *)
Fixpoint digits_string (ds : list Digit) : string :=
  match ds with
  | [] => EmptyString
  | d :: ds' => digit_string d ++ digits_string ds'
  end.

(** [ds] without the zeros it starts with. *)
Fixpoint drop_leading_zeros (ds : list Digit) : list Digit :=
  match ds with
  | D0 :: ds' => drop_leading_zeros ds'
  | _ => ds
  end.

(** The entry that typing the digits [ds] gives from "0". *)
Definition typed_integer (ds : list Digit) : string :=
  match drop_leading_zeros ds with
  | [] => "0"
  | ds' => digits_string ds'
  end.

(** The backspace key, [n] times. *)
Fixpoint backspaces (n : nat) (s : State) : State :=
  match n with
  | O => s
  | S n' => backspaces n' (onBackspace s)
  end.

(** Only digits. *)
Fixpoint all_digits (s : string) : bool :=
  match s with
  | EmptyString => true
  | String c r => is_digit c && all_digits r
  end.

(** A first code unit that is a digit. *)
Definition leading_digit (s : string) : bool :=
  match s with
  | EmptyString => false
  | String c _ => is_digit c
  end.

(** Is [k] one of the four operator keys ? *)
Definition operator_key (k : Key) : bool :=
  match k with
  | KOperator _ => true
  | _ => false
  end.

(** The test [onOperator] and [onEquals] make before they call [compute]
    in the state [s]: is there a division pending whose two operands parse,
    the second one to a zero ? *)
Definition divides_by_zero (s : State) : bool :=
  match previousValue s, operator s with
  | Some prev, Some o =>
      str_eq o DIVISION_SIGN
      && negb (isNaN (parseFloat prev))
      && num_eq (parseFloat (currentValue s)) pos_zero
  | _, _ => false
  end.

(** What one backspace key leaves: no error, nothing to overwrite. *)
Definition calm (s : State) : Prop := error s = false /\ overwrite s = false.

(* ================================================================== *)
(** * Properties                                                        *)
(* ================================================================== *)

(** ** The built-ins at work *)

Example parseFloat_prefix :
  toString (parseFloat "  -12.5e-3xyz") = "-0.0125" /\
  isNaN (parseFloat "abc") = true /\ isNaN (parseFloat ".") = true.
Proof. vm_compute. repeat split. Qed.

Example Number_whole_string :
  toString (Number "05") = "5" /\ toString (Number " 12 ") = "12" /\
  toString (Number "0x1F") = "31" /\ toString (Number EmptyString) = "0" /\
  isNaN (Number "12px") = true.
Proof. vm_compute. repeat split. Qed.

Example toString_forms :
  toString (parseFloat "0.1") = "0.1" /\
  toString (add (parseFloat "0.1") (parseFloat "0.2"))
    = "0.30000000000000004" /\
  toString (div (parseFloat "1") (parseFloat "3")) = "0.3333333333333333" /\
  toString (parseFloat "1e21") = "1e+21" /\
  toString (parseFloat "1e20") = "100000000000000000000" /\
  toString (parseFloat "0.0000001") = "1e-7" /\
  toString (parseFloat "9007199254740993") = "9007199254740992" /\
  toString (div (parseFloat "5") (parseFloat "0")) = "Infinity".
Proof. vm_compute. repeat split. Qed.

Example toPrecision_forms :
  toPrecision (parseFloat "123.456") 10 = "123.4560000" /\
  toPrecision (parseFloat "1e20") 10 = "1.000000000e+20" /\
  toPrecision (parseFloat "0.000001") 10 = "0.000001000000000" /\
  toPrecision (parseFloat "99999999999.5") 10 = "1.000000000e+11".
Proof. vm_compute. repeat split. Qed.

Example replace_trailing_zeros_forms :
  replace_trailing_zeros "123.4560000" = "123.456" /\
  replace_trailing_zeros "2.000000000" = "2" /\
  replace_trailing_zeros "1.000000000e+20" = "1.000000000e+2" /\
  replace_trailing_zeros "1.5e+21" = "1.5e+21".
Proof. vm_compute. repeat split. Qed.

Example sanitize_leading_zeros :
  sanitizeNumberString "05" = "5" /\ sanitizeNumberString "0.5" = "0.5" /\
  sanitizeNumberString "0" = "0" /\ sanitizeNumberString EmptyString = "0".
Proof. vm_compute. repeat split. Qed.

(** ** Runs and reachable states *)

Lemma run_app s ks1 ks2 :
  run s (ks1 ++ ks2)%list = run (run s ks1) ks2.
Proof. unfold run. apply fold_left_app. Qed.

Lemma run_snoc s ks k : run s (ks ++ [k])%list = press (run s ks) k.
Proof. rewrite run_app. reflexivity. Qed.

Lemma reachable_run_from s ks : reachable s -> reachable (run s ks).
Proof.
  revert s. induction ks as [|k ks IH]; intros s Hs; simpl.
  - exact Hs.
  - apply IH. constructor. exact Hs.
Qed.

Lemma reachable_run ks : reachable (run initial ks).
Proof. apply reachable_run_from. constructor. Qed.

Lemma reachable_inv s : reachable s -> exists ks, s = run initial ks.
Proof.
  induction 1 as [|s k _ [ks ->]].
  - exists []. reflexivity.
  - exists (ks ++ [k])%list. symmetry. apply run_snoc.
Qed.

(** ** The error state *)

Lemma onOperator_errored op s : error s = true -> onOperator op s = s.
Proof. intros H. unfold onOperator. rewrite H. reflexivity. Qed.

Lemma onEquals_errored s : error s = true -> onEquals s = initial.
Proof. intros H. unfold onEquals. rewrite H. reflexivity. Qed.

Lemma five_by_zero_errorState : five_by_zero = errorState.
Proof. vm_compute. reflexivity. Qed.

(** C1, as stated, fails: the state after 5, the division sign, 0 and the
    equals key is reachable and errored, and the equals key changes it (it
    resets it). *)
Lemma errored_equals_not_noop :
  ~ (forall s, reachable s -> error s = true ->
       (forall o, onOperator (sign_string o) s = s) /\ onEquals s = s).
Proof.
  intros H.
  destruct (H five_by_zero) as [_ Heq].
  - apply reachable_run.
  - rewrite five_by_zero_errorState. reflexivity.
  - rewrite five_by_zero_errorState in Heq. discriminate Heq.
Qed.

(** C1, amended: in every state in which [error] is set (reachable or not)
    each of the four operator keys leaves the state as it is, and the equals
    key resets it to the initial state. *)
Theorem errored_operator_noop_equals_resets s :
  error s = true ->
  (forall o, onOperator (sign_string o) s = s) /\ onEquals s = initial.
Proof.
  intros H. split.
  - intros o. apply onOperator_errored. exact H.
  - apply onEquals_errored. exact H.
Qed.

Lemma errored_operator_noop_equals_resets_witness :
  error five_by_zero = true /\
  (forall o, onOperator (sign_string o) five_by_zero = five_by_zero) /\
  onEquals five_by_zero = initial.
Proof.
  split; [ vm_compute; reflexivity
         | apply (errored_operator_noop_equals_resets five_by_zero);
           vm_compute; reflexivity ].
Defined.

(** C2: in every state in which [error] is set the equals key puts every
    cell back to its initial value, which is what the clear key does. *)
Theorem errored_equals_is_clear s :
  error s = true ->
  onEquals s = {| currentValue := "0"; previousValue := None;
                  operator := None; overwrite := false; error := false |}
  /\ onEquals s = onClear s.
Proof.
  intros H. unfold onEquals, onClear, resetAll. rewrite H. split; reflexivity.
Qed.

Lemma errored_equals_is_clear_witness :
  error five_by_zero = true /\
  onEquals five_by_zero =
    {| currentValue := "0"; previousValue := None;
       operator := None; overwrite := false; error := false |} /\
  onEquals five_by_zero = onClear five_by_zero.
Proof.
  split; [ vm_compute; reflexivity
         | apply (errored_equals_is_clear five_by_zero);
           vm_compute; reflexivity ].
Defined.

(** ** Worked sequences *)

(** C3: from the initial state the keys 2 + 3 x 4 = are evaluated left to
    right: the second operator key computes 2 + 3 = 5 (the entry and the
    pending operand both become "5", the pending operator the multiplication
    sign), the equals key computes 5 x 4 = 20, and the entry ends as "20". *)
Theorem chain_left_to_right :
  let s4 := run initial [KDigit D2; KOperator Plus; KDigit D3;
                         KOperator Times] in
  let s6 := run s4 [KDigit D4; KEquals] in
  compute "2" "3" "+" = "5" /\
  s4 = {| currentValue := "5"; previousValue := Some "5";
          operator := Some MULTIPLICATION_SIGN; overwrite := true;
          error := false |} /\
  compute "5" "4" MULTIPLICATION_SIGN = "20" /\
  s6 = {| currentValue := "20"; previousValue := None; operator := None;
          overwrite := true; error := false |} /\
  currentValue
    (run initial [KDigit D2; KOperator Plus; KDigit D3; KOperator Times;
                  KDigit D4; KEquals]) = "20".
Proof. vm_compute. repeat split. Qed.

(** Three digits typed from the initial state. *)
Example digits_1_2_3 :
  currentValue (run initial [KDigit D1; KDigit D2; KDigit D3]) = "123".
Proof. vm_compute. reflexivity. Qed.

(** Backspace right after the equals key, or right after an operator key,
    clears the entry instead of deleting a code unit of it. *)
Example backspace_when_overwrite :
  currentValue
    (run initial [KDigit D1; KDigit D2; KOperator Plus; KDigit D3; KEquals;
                  KBackspace]) = "0" /\
  currentValue
    (run initial [KDigit D1; KDigit D2; KOperator Plus; KBackspace]) = "0".
Proof. vm_compute. split; reflexivity. Qed.

(** The clear key gives the initial state, whatever the state. *)
Lemma clear_resets s : press s KClear = initial.
Proof. reflexivity. Qed.

(** C4: from a state whose entry is "5", with no pending operator, the
    division sign, 0 and the equals key give the error state ([error] set,
    "Error" displayed); the digit 1 pressed next clears the error and makes
    the entry "1".  A state whose entry is "5" is a state without error: with
    [error] set the entry is "Error" ([reachable_error_marker] below). *)
Theorem divide_by_zero_then_digit s :
  currentValue s = "5" -> operator s = None -> error s = false ->
  let s3 := run s [KOperator Divide; KDigit D0; KEquals] in
  error s3 = true /\ displayValue s3 = "Error" /\
  currentValue s3 = "Error" /\
  error (press s3 (KDigit D1)) = false /\
  currentValue (press s3 (KDigit D1)) = "1".
Proof.
  destruct s as [cv pv op ow er]. simpl. intros -> -> ->.
  destruct pv; vm_compute; repeat split.
Qed.

Lemma divide_by_zero_then_digit_witness :
  let s := run initial [KDigit D5] in
  let s3 := run s [KOperator Divide; KDigit D0; KEquals] in
  error s3 = true /\ displayValue s3 = "Error" /\
  currentValue s3 = "Error" /\
  error (press s3 (KDigit D1)) = false /\
  currentValue (press s3 (KDigit D1)) = "1".
Proof.
  apply (divide_by_zero_then_digit (run initial [KDigit D5]));
    vm_compute; reflexivity.
Defined.


(** ** The two pending cells *)

Ltac case_result :=
  match goal with
  | |- context [str_eq (compute ?a ?b ?o) "Error"] =>
      destruct (str_eq (compute a b o) "Error")
  end.

Lemma paired_initial : paired initial.
Proof. unfold paired; simpl. tauto. Qed.

Lemma paired_both_none cv ow er : paired (mkState cv None None ow er).
Proof. unfold paired; simpl. tauto. Qed.

Lemma paired_both_some cv p o ow er :
  paired (mkState cv (Some p) (Some o) ow er).
Proof. unfold paired; simpl. split; intros _; discriminate. Qed.

Create HintDb calc.
#[local] Hint Resolve paired_initial paired_both_none paired_both_some : calc.

Lemma onDigit_paired d s : paired s -> paired (onDigit d s).
Proof.
  destruct s as [cv pv op ow er]. unfold onDigit; simpl.
  destruct er; [auto with calc|]. destruct ow; auto.
Qed.

Lemma onDecimal_paired s : paired s -> paired (onDecimal s).
Proof.
  destruct s as [cv pv op ow er]. unfold onDecimal; simpl.
  destruct er; [auto with calc|]. destruct ow; auto.
Qed.

Lemma onBackspace_paired s : paired s -> paired (onBackspace s).
Proof.
  destruct s as [cv pv op ow er]. unfold onBackspace, resetAll; simpl.
  destruct er; [auto with calc|]. destruct ow; auto.
Qed.

Lemma onOperator_paired op s : paired s -> paired (onOperator op s).
Proof.
  destruct s as [cv pv o ow er]. unfold onOperator, errorState; simpl.
  destruct er; [auto|].
  destruct pv, o, ow; try case_result; auto with calc.
Qed.

Lemma onEquals_paired s : paired s -> paired (onEquals s).
Proof.
  destruct s as [cv pv o ow er]. unfold onEquals, resetAll, errorState; simpl.
  destruct er; [auto with calc|].
  destruct pv, o; try case_result; auto with calc.
Qed.

Lemma press_paired s k : paired s -> paired (press s k).
Proof.
  destruct k; simpl.
  - apply onDigit_paired.
  - apply onDecimal_paired.
  - apply onOperator_paired.
  - apply onEquals_paired.
  - apply onBackspace_paired.
  - intros _. apply paired_initial.
Qed.

(** C5: the pending operator is set if and only if the pending operand is:
    this holds in the initial state, each key keeps it (from any state in
    which it holds), and so it holds in every reachable state. *)
Theorem pending_cells_paired :
  paired initial /\
  (forall s k, paired s -> paired (press s k)) /\
  (forall s, reachable s -> paired s).
Proof.
  split; [apply paired_initial|].
  split; [apply press_paired|].
  induction 1; [apply paired_initial | apply press_paired; assumption].
Qed.

Lemma pending_cells_paired_witness :
  let s := run initial [KDigit D2; KOperator Plus; KDigit D3] in
  reachable s /\ paired s /\ paired (press s KEquals).
Proof.
  destruct pending_cells_paired as [_ [Hstep Hall]].
  assert (Hr : reachable (run initial [KDigit D2; KOperator Plus; KDigit D3]))
    by apply reachable_run.
  split; [exact Hr|].
  split; [apply Hall; exact Hr | apply Hstep, Hall; exact Hr].
Defined.

(** ** Equals twice *)

Example equals_after_five_by_zero :
  error five_by_zero_pending = false /\
  onEquals five_by_zero_pending = errorState /\
  onEquals (onEquals five_by_zero_pending) = initial.
Proof. vm_compute. repeat split. Qed.

(** C8, as stated, fails: after 5, the division sign and 0 (no error yet)
    the first equals key gives the error state and the second one resets
    it. *)
Lemma equals_twice_not_noop :
  ~ (forall s, error s = false -> onEquals (onEquals s) = onEquals s).
Proof.
  intros H. specialize (H five_by_zero_pending).
  vm_compute in H. specialize (H eq_refl). discriminate H.
Qed.

(** C8, amended: in every state without error in which the equals key does
    not end in the error state (no division by zero), a second equals key
    changes nothing. *)
Theorem equals_twice s :
  error s = false -> error (onEquals s) = false ->
  onEquals (onEquals s) = onEquals s.
Proof.
  destruct s as [cv pv o ow er]. unfold onEquals at 1 3 4; simpl.
  intros ->. destruct pv as [p|]; [destruct o as [o|]|];
    try reflexivity.
  unfold errorState. case_result; simpl.
  - discriminate.
  - reflexivity.
Qed.

Lemma equals_twice_witness :
  let s := run initial [KDigit D2; KOperator Plus; KDigit D3] in
  error s = false /\ error (onEquals s) = false /\
  onEquals (onEquals s) = onEquals s.
Proof.
  split; [vm_compute; reflexivity|].
  split; [vm_compute; reflexivity|].
  apply (equals_twice (run initial [KDigit D2; KOperator Plus; KDigit D3]));
    vm_compute; reflexivity.
Defined.

(** ** Frame *)

(** C9: without error, a digit key, the decimal key and the backspace key
    leave the pending operand and the pending operator as they are (and the
    error flag too: the entry and the overwrite flag are the only cells they
    write). *)
Theorem entry_keys_keep_pending s d :
  error s = false ->
  (previousValue (onDigit (digit_string d) s) = previousValue s /\
   operator (onDigit (digit_string d) s) = operator s /\
   error (onDigit (digit_string d) s) = error s) /\
  (previousValue (onDecimal s) = previousValue s /\
   operator (onDecimal s) = operator s /\
   error (onDecimal s) = error s) /\
  (previousValue (onBackspace s) = previousValue s /\
   operator (onBackspace s) = operator s /\
   error (onBackspace s) = error s).
Proof.
  destruct s as [cv pv o ow er]. simpl. intros ->.
  unfold onDigit, onDecimal, onBackspace; simpl.
  destruct ow; simpl; repeat split.
Qed.

Lemma entry_keys_keep_pending_witness :
  let s := run initial [KDigit D2; KOperator Plus; KDigit D3] in
  error s = false /\
  previousValue (onDigit (digit_string D7) s) = Some "2" /\
  operator (onDecimal s) = Some "+" /\
  previousValue (onBackspace s) = Some "2".
Proof.
  pose proof (entry_keys_keep_pending
                (run initial [KDigit D2; KOperator Plus; KDigit D3]) D7
                eq_refl) as [[H1 _] [[_ [H2 _]] [H3 _]]].
  split; [reflexivity|].
  split; [rewrite H1; reflexivity|].
  split; [rewrite H2; reflexivity | rewrite H3; reflexivity].
Defined.

(** ** [compute] *)

Example compute_not_a_number :
  compute "1" "abc" "%" = "0" /\ compute "1" "2abc" "%" = "2abc" /\
  compute "abc" "2" "+" = "0".
Proof. vm_compute. repeat split. Qed.

(** C10, as stated, fails: with a sign [compute] has no case for, the second
    operand is not returned when an operand does not parse; "0" is. *)
Lemma compute_unknown_operator_not_second :
  ~ (forall aStr bStr op,
       (isNaN (parseFloat aStr) || isNaN (parseFloat bStr) = true ->
        compute aStr bStr op = "0") /\
       (known_operator op = false -> compute aStr bStr op = bStr)).
Proof.
  intros H. destruct (H "1" "abc" "%") as [_ H2].
  specialize (H2 eq_refl). vm_compute in H2. discriminate H2.
Qed.

(** C10, amended: [compute] returns a string for every two operands and
    every sign; "0" when an operand does not parse ([parseFloat] gives NaN);
    and, when both operands parse and the sign is none of the four, the
    second operand as it is. *)
Theorem compute_total aStr bStr op :
  exists r : string,
    compute aStr bStr op = r /\
    (isNaN (parseFloat aStr) || isNaN (parseFloat bStr) = true -> r = "0") /\
    (isNaN (parseFloat aStr) || isNaN (parseFloat bStr) = false ->
     known_operator op = false -> r = bStr).
Proof.
  exists (compute aStr bStr op). split; [reflexivity|].
  unfold compute, known_operator.
  destruct (isNaN (parseFloat aStr) || isNaN (parseFloat bStr)).
  - split; [reflexivity | discriminate].
  - split; [discriminate|]. intros _ H.
    destruct (str_eq op "+"); [discriminate|].
    destruct (str_eq op "-"); [discriminate|].
    destruct (str_eq op MULTIPLICATION_SIGN); [discriminate|].
    destruct (str_eq op DIVISION_SIGN); [discriminate|].
    reflexivity.
Qed.

Lemma compute_total_witness :
  compute "1" "abc" "%" = "0" /\ compute "1" "2abc" "%" = "2abc".
Proof.
  split.
  - destruct (compute_total "1" "abc" "%") as [r [<- [H _]]].
    apply H. vm_compute. reflexivity.
  - destruct (compute_total "1" "2abc" "%") as [r [<- [_ H]]].
    apply H; vm_compute; reflexivity.
Defined.

(** ** Entries built from digits and the point *)

Lemma count_char_append s t c :
  count_char (s ++ t) c = (count_char s c + count_char t c)%nat.
Proof. induction s; simpl; [reflexivity | rewrite IHs; lia]. Qed.

Lemma includes_char_count s c :
  includes_char s c = false -> count_char s c = O.
Proof.
  induction s as [|a r IH]; simpl; [reflexivity|].
  destruct (Ascii.eqb a c); simpl; [discriminate | exact IH].
Qed.

Lemma count_char_digit d : count_char (digit_string d) "." = O.
Proof. destruct d; reflexivity. Qed.

Lemma plain_digit d : plain (digit_string d) = true.
Proof. destruct d; reflexivity. Qed.

Lemma sanitize_plain s : plain s = true -> sanitizeNumberString s = s.
Proof.
  destruct s as [|c r]; [discriminate|].
  unfold sanitizeNumberString, str_eq, startsWith. simpl plain.
  destruct (Ascii.eqb_spec c "0") as [->|Hc]; simpl.
  - destruct r as [|d r']; [reflexivity|]. simpl.
    destruct (Ascii.eqb_spec d ".") as [->|Hd]; [|discriminate].
    intros _. reflexivity.
  - intros _.
    destruct (Ascii.eqb_spec c "0") as [->|_]; [contradiction|]. reflexivity.
Qed.

Lemma plain_append s t :
  plain s = true -> s <> "0" -> plain (s ++ t) = true.
Proof.
  destruct s as [|c r]; [discriminate|]. simpl.
  destruct (Ascii.eqb c "0") eqn:Hc; simpl; [|reflexivity].
  destruct r as [|d r']; simpl.
  - apply Ascii.eqb_eq in Hc. subst c. intros _ H. contradiction H.
    reflexivity.
  - intros H _. exact H.
Qed.

Lemma plain_append_point s : plain s = true -> plain (s ++ ".") = true.
Proof.
  destruct s as [|c r]; [discriminate|]. simpl.
  destruct (Ascii.eqb c "0"); simpl; [|reflexivity].
  destruct r as [|d r']; simpl; [reflexivity | intros H; exact H].
Qed.

Lemma entering_initial : entering initial.
Proof. unfold entering; simpl. repeat split. lia. Qed.

Lemma onDigit_entering d s : entering s -> entering (onDigit (digit_string d) s).
Proof.
  destruct s as [cv pv o ow er]. unfold entering, onDigit; simpl.
  intros (-> & -> & Hp & Hc). simpl.
  destruct (str_eq cv "0") eqn:E.
  - rewrite (sanitize_plain _ (plain_digit d)), count_char_digit.
    repeat split; [apply plain_digit | lia].
  - assert (Hne : cv <> "0").
    { intros ->. discriminate E. }
    rewrite (sanitize_plain _ (plain_append _ _ Hp Hne)).
    rewrite count_char_append, count_char_digit.
    repeat split; [apply plain_append; assumption | lia].
Qed.

Lemma onDecimal_entering s : entering s -> entering (onDecimal s).
Proof.
  destruct s as [cv pv o ow er]. unfold entering, onDecimal; simpl.
  intros (-> & -> & Hp & Hc). simpl.
  destruct (includes_char cv ".") eqn:E.
  - repeat split; assumption.
  - rewrite count_char_append, (includes_char_count _ _ E).
    repeat split; [apply plain_append_point; assumption | simpl; lia].
Qed.

Lemma run_entering ks s :
  forallb entry_key ks = true -> entering s -> entering (run s ks).
Proof.
  revert s. induction ks as [|k ks IH]; intros s; simpl; [auto|].
  intros H Hs. apply andb_prop in H as [Hk Hks].
  apply IH; [exact Hks|].
  destruct k; try discriminate; simpl.
  - apply onDigit_entering. exact Hs.
  - apply onDecimal_entering. exact Hs.
Qed.

(** C6: after any keys that are digits or the point, pressed from the
    initial state, the entry has at most one point; and when it has one, the
    decimal key changes nothing. *)
Theorem entry_one_decimal_point ks :
  forallb entry_key ks = true ->
  let s := run initial ks in
  (count_char (currentValue s) "." <= 1)%nat /\
  (includes_char (currentValue s) "." = true -> onDecimal s = s).
Proof.
  intros H s.
  destruct (run_entering ks initial H entering_initial) as (He & Ho & _ & Hc).
  fold s in He, Ho, Hc. split; [exact Hc|].
  intros Hi. destruct s as [cv pv o ow er]. simpl in *. subst.
  unfold onDecimal; simpl. rewrite Hi. reflexivity.
Qed.

Lemma entry_one_decimal_point_witness :
  let s := run initial [KDigit D1; KDecimal; KDigit D5; KDecimal; KDigit D0] in
  currentValue s = "1.50" /\
  (count_char (currentValue s) "." <= 1)%nat /\
  (includes_char (currentValue s) "." = true -> onDecimal s = s).
Proof.
  split; [vm_compute; reflexivity|].
  apply (entry_one_decimal_point
           [KDigit D1; KDecimal; KDigit D5; KDecimal; KDigit D0]).
  vm_compute; reflexivity.
Defined.

(** ** The text of a Number is a plain entry *)

Lemma leading_nonzero_plain s : leading_nonzero s = true -> plain s = true.
Proof.
  destruct s as [|c r]; simpl; [discriminate|]. intros ->. reflexivity.
Qed.

Lemma leading_nonzero_append s t :
  leading_nonzero s = true -> leading_nonzero (s ++ t) = true.
Proof. destruct s; simpl; [discriminate | auto]. Qed.

Lemma leading_nonzero_sub_string s n :
  (0 < n)%Z -> leading_nonzero s = true ->
  leading_nonzero (sub_string 0 n s) = true.
Proof.
  intros Hn. unfold sub_string. simpl Z.to_nat.
  destruct (Z.to_nat n) as [|k] eqn:E; [lia|].
  destruct s; simpl; [discriminate | auto].
Qed.

(** The digits of a positive number do not start with "0". *)
Lemma to_uint_unorm p : Decimal.unorm (Pos.to_uint p) = Pos.to_uint p.
Proof.
  rewrite <- DecimalPos.Unsigned.to_of, DecimalPos.Unsigned.of_to.
  reflexivity.
Qed.

Lemma digits_of_leading p : leading_nonzero (digits_of (Zpos p)) = true.
Proof.
  unfold digits_of. simpl Z.to_N. simpl N.to_uint.
  pose proof (to_uint_unorm p) as Hn.
  pose proof (DecimalPos.Unsigned.to_uint_nonzero p) as Hz.
  pose proof (DecimalPos.Unsigned.to_uint_nonnil p) as Hnil.
  destruct (Pos.to_uint p) as [|u|u|u|u|u|u|u|u|u|u]; try reflexivity.
  - contradiction Hnil. reflexivity.
  - exfalso. rewrite DecimalFacts.unorm_D0 in Hn.
    destruct u as [|u|u|u|u|u|u|u|u|u|u];
      try (contradiction Hz; reflexivity);
      match type of Hn with
      | Decimal.unorm ?v = _ =>
          assert (Hv : v <> Decimal.Nil) by discriminate;
          pose proof (DecimalFacts.nb_digits_unorm v Hv) as Hle;
          rewrite Hn in Hle; simpl in Hle; lia
      end.
Qed.

Lemma format_decimal_plain ds n :
  leading_nonzero ds = true -> plain (format_decimal ds n) = true.
Proof.
  intros H. unfold format_decimal.
  destruct ((Z.of_nat (String.length ds) <=? n) && (n <=? 21))%Z.
  { apply leading_nonzero_plain, leading_nonzero_append, H. }
  destruct ((0 <? n)%Z) eqn:Hn; simpl.
  - destruct (n <=? 21)%Z.
    + apply leading_nonzero_plain, leading_nonzero_append,
        leading_nonzero_sub_string; [lia | exact H].
    + destruct ((-6 <? n) && (n <=? 0))%Z; [reflexivity|].
      destruct (Z.of_nat (String.length ds) =? 1)%Z;
        apply leading_nonzero_plain, leading_nonzero_append;
        [exact H | apply leading_nonzero_sub_string; [lia | exact H]].
  - destruct ((-6 <? n) && (n <=? 0))%Z; [reflexivity|].
    destruct (Z.of_nat (String.length ds) =? 1)%Z;
      apply leading_nonzero_plain, leading_nonzero_append;
      [exact H | apply leading_nonzero_sub_string; [lia | exact H]].
Qed.

Lemma rounds_to_positive m e c t : rounds_to m e c t = true -> (0 < c)%Z.
Proof.
  unfold rounds_to. destruct c; simpl; try discriminate. lia.
Qed.

Lemma fraction_of_positive m e :
  (0 < fst (fraction_of m e) /\ 0 < snd (fraction_of m e))%Z.
Proof.
  unfold fraction_of. destruct (0 <=? e)%Z eqn:E; cbn [fst snd].
  - split; [|lia]. apply Z.mul_pos_pos; [lia|].
    apply Z.pow_pos_nonneg; lia.
  - split; [lia|]. apply Z.pow_pos_nonneg; lia.
Qed.

Lemma scale10_positive x t :
  (0 < fst x)%Z -> (0 < snd x)%Z ->
  (0 < fst (scale10 x t) /\ 0 < snd (scale10 x t))%Z.
Proof.
  intros Hf Hs. unfold scale10. destruct (0 <=? t)%Z eqn:E; cbn [fst snd].
  - split; [exact Hf|]. apply Z.mul_pos_pos; [exact Hs|].
    apply Z.pow_pos_nonneg; lia.
  - split; [|exact Hs]. apply Z.mul_pos_pos; [exact Hf|].
    apply Z.pow_pos_nonneg; lia.
Qed.

Lemma exact_decimal_positive m e : (0 < fst (exact_decimal m e))%Z.
Proof.
  unfold exact_decimal. destruct (0 <=? e)%Z eqn:E; cbn [fst snd];
    (apply Z.mul_pos_pos; [lia | apply Z.pow_pos_nonneg; lia]).
Qed.

Lemma shortest_positive fuel m e x t :
  (0 < fst x)%Z -> (0 < snd x)%Z ->
  (0 < fst (shortest fuel m e x t))%Z.
Proof.
  intros Hf Hs. revert t.
  induction fuel as [|fuel IH]; intros t; cbn [shortest].
  - apply exact_decimal_positive.
  - destruct (scale10_positive x t Hf Hs) as [Hyf Hys].
    set (q := (fst (scale10 x t) / snd (scale10 x t))%Z).
    assert (Hq : (0 <= q)%Z) by (apply Z.div_pos; lia).
    destruct (rounds_to m e q t) eqn:Hb;
      destruct (rounds_to m e (q + 1) t) eqn:Ha; cbn [andb].
    + apply rounds_to_positive in Hb.
      destruct (_ || _)%bool; cbn [fst]; lia.
    + apply rounds_to_positive in Hb. cbn [fst]. exact Hb.
    + cbn [fst]. lia.
    + apply IH.
Qed.

Lemma strip_zeros_positive fuel s t :
  (0 < s)%Z -> (0 < fst (strip_zeros fuel s t))%Z.
Proof.
  revert s t. induction fuel as [|fuel IH]; intros s t Hs; simpl.
  - exact Hs.
  - destruct ((0 <? s) && (s mod 10 =? 0))%Z eqn:E; simpl; [|exact Hs].
    apply IH. apply andb_prop in E as [_ E]. apply Z.eqb_eq in E.
    pose proof (Z.div_mod s 10 ltac:(lia)). lia.
Qed.

Lemma positive_toString_plain m e : plain (positive_toString m e) = true.
Proof.
  unfold positive_toString.
  destruct (fraction_of_positive m e) as [Hf Hs].
  pose proof (shortest_positive 17 m e (fraction_of m e)
                (decade (fraction_of m e) - 1) Hf Hs) as H0.
  destruct (shortest 17 m e (fraction_of m e) (decade (fraction_of m e) - 1))
    as [s0 t0].
  simpl in H0.
  pose proof (strip_zeros_positive 400 s0 t0 H0) as H1.
  destruct (strip_zeros 400 s0 t0) as [s1 t1]. simpl in H1.
  apply format_decimal_plain.
  destruct s1 as [|p|p]; try lia. apply digits_of_leading.
Qed.

Lemma toString_plain x : plain (toString x) = true.
Proof.
  destruct x as [sg|sg| |sg m e]; simpl; try reflexivity.
  - destruct sg; reflexivity.
  - destruct sg; simpl; [reflexivity | apply positive_toString_plain].
Qed.

Lemma compute_plain aStr bStr op :
  plain bStr = true -> plain (compute aStr bStr op) = true.
Proof.
  intros Hb. unfold compute.
  destruct (isNaN (parseFloat aStr) || isNaN (parseFloat bStr));
    [reflexivity|].
  repeat match goal with
         | |- context [if ?c then _ else _] => destruct c
         end; auto using toString_plain.
Qed.

(** ** Every entry the component holds is plain *)

Lemma plain_slice c r :
  r <> EmptyString -> plain (String c r) = true ->
  plain (slice_0_m1 (String c r)) = true.
Proof.
  destruct r as [|d r']; [intros H; contradiction H; reflexivity|].
  intros _. simpl plain.
  destruct (Ascii.eqb c "0"); simpl; [|reflexivity].
  intros Hd. destruct r'; [reflexivity | exact Hd].
Qed.

Lemma onBackspace_plain s :
  plain (currentValue s) = true -> plain (currentValue (onBackspace s)) = true.
Proof.
  destruct s as [cv pv o ow er]. unfold onBackspace, resetAll; simpl.
  intros Hp. destruct er; [reflexivity|]. destruct ow; [reflexivity|].
  simpl. destruct cv as [|c r]; [discriminate|].
  destruct r as [|d r']; [reflexivity|].
  change (String.length (String c (String d r')) <=? 1)%nat with false.
  cbv iota.
  destruct (str_eq (slice_0_m1 (String c (String d r'))) "-");
    [reflexivity|].
  apply plain_slice; [discriminate | exact Hp].
Qed.

Lemma onDigit_plain d s :
  plain (currentValue s) = true ->
  plain (currentValue (onDigit (digit_string d) s)) = true.
Proof.
  destruct s as [cv pv o ow er]. unfold onDigit; simpl.
  intros Hp. destruct er; [apply plain_digit|].
  destruct ow; [apply plain_digit|]. simpl.
  destruct (str_eq cv "0") eqn:E.
  - rewrite (sanitize_plain _ (plain_digit d)). apply plain_digit.
  - assert (Hne : cv <> "0") by (intros ->; discriminate E).
    rewrite (sanitize_plain _ (plain_append _ _ Hp Hne)).
    apply plain_append; assumption.
Qed.

Lemma onDecimal_plain s :
  plain (currentValue s) = true -> plain (currentValue (onDecimal s)) = true.
Proof.
  destruct s as [cv pv o ow er]. unfold onDecimal; simpl.
  intros Hp. destruct er; [reflexivity|]. destruct ow; [reflexivity|].
  simpl. destruct (includes_char cv ".");
    [exact Hp | apply plain_append_point, Hp].
Qed.

Lemma onOperator_plain op s :
  plain (currentValue s) = true ->
  plain (currentValue (onOperator op s)) = true.
Proof.
  destruct s as [cv pv o ow er]. unfold onOperator, errorState; simpl.
  intros Hp. destruct er; [exact Hp|].
  destruct pv, o, ow; try exact Hp.
  case_result; [reflexivity | apply compute_plain, Hp].
Qed.

Lemma onEquals_plain s :
  plain (currentValue s) = true -> plain (currentValue (onEquals s)) = true.
Proof.
  destruct s as [cv pv o ow er]. unfold onEquals, resetAll, errorState; simpl.
  intros Hp. destruct er; [reflexivity|].
  destruct pv, o; try exact Hp.
  case_result; [reflexivity | apply compute_plain, Hp].
Qed.

Lemma press_plain s k :
  plain (currentValue s) = true -> plain (currentValue (press s k)) = true.
Proof.
  destruct k; simpl.
  - apply onDigit_plain.
  - apply onDecimal_plain.
  - apply onOperator_plain.
  - apply onEquals_plain.
  - apply onBackspace_plain.
  - reflexivity.
Qed.

Lemma reachable_plain s : reachable s -> plain (currentValue s) = true.
Proof. induction 1; [reflexivity | apply press_plain; assumption]. Qed.


(** In a reachable state with [error] set the entry is "Error". *)
Lemma reachable_error_marker s :
  reachable s -> error s = true -> s = errorState.
Proof.
  induction 1 as [|s k Hr IH]; [discriminate|].
  destruct s as [cv pv o ow er]. destruct k; simpl.
  - unfold onDigit; simpl. destruct er; [discriminate|].
    destruct ow; simpl; discriminate.
  - unfold onDecimal; simpl. destruct er; [discriminate|].
    destruct ow; simpl; discriminate.
  - unfold onOperator; simpl. destruct er; [exact IH|].
    destruct pv, o, ow; try discriminate.
    case_result; [reflexivity | discriminate].
  - unfold onEquals; simpl. destruct er; [discriminate|].
    destruct pv, o; try discriminate.
    case_result; [reflexivity | discriminate].
  - unfold onBackspace; simpl. destruct er; [discriminate|].
    destruct ow; simpl; discriminate.
  - discriminate.
Qed.

(** ** The displayed text *)


(** Why the states are the reachable ones: on an entry that no key sequence
    produces, a leading zero before an exponent, normalizing makes the
    entry longer. *)
Example zero_led_exponent_display :
  sanitizeNumberString (currentValue zero_led_exponent)
    = "100000000000000000000" /\
  displayValue zero_led_exponent = "1.000000000e+2".
Proof. vm_compute. split; reflexivity. Qed.



(* ================================================================== *)
(** * Further properties of the component                               *)
(* ================================================================== *)

(** ** The text of a Number, code unit by code unit *)

Lemma is_digit_not_point c : is_digit c = true -> Ascii.eqb c "." = false.
Proof.
  intros H. destruct (Ascii.eqb_spec c ".") as [->|_];
    [discriminate H | reflexivity].
Qed.

Lemma all_digits_append s t :
  all_digits (s ++ t) = all_digits s && all_digits t.
Proof.
  induction s as [|c r IH]; simpl; [reflexivity|].
  rewrite IH. apply andb_assoc.
Qed.

Lemma all_digits_substring s : forall n m,
  all_digits s = true -> all_digits (String.substring n m s) = true.
Proof.
  induction s as [|c r IH]; intros n m H.
  - destruct n, m; reflexivity.
  - simpl in H. apply andb_prop in H as [Hc Hr].
    destruct n as [|n]; [destruct m as [|m]|]; simpl.
    + reflexivity.
    + rewrite Hc. apply IH, Hr.
    + apply IH, Hr.
Qed.

Lemma all_digits_no_point s :
  all_digits s = true -> count_char s "." = O.
Proof.
  induction s as [|c r IH]; simpl; [reflexivity|].
  intros H. apply andb_prop in H as [Hc Hr].
  rewrite (is_digit_not_point c Hc), (IH Hr). reflexivity.
Qed.

Lemma all_digits_leading s :
  all_digits s = true -> s <> EmptyString -> leading_digit s = true.
Proof.
  destruct s as [|c r]; simpl; [intros _ H; contradiction H; reflexivity|].
  intros H _. apply andb_prop in H as [Hc _]. exact Hc.
Qed.

Lemma string_of_uint_all_digits u :
  all_digits (NilEmpty.string_of_uint u) = true.
Proof. induction u; simpl; auto. Qed.

Lemma digits_of_all_digits z : all_digits (digits_of z) = true.
Proof. apply string_of_uint_all_digits. Qed.

Lemma digits_of_not_empty z : digits_of z <> EmptyString.
Proof.
  unfold digits_of. destruct (Z.to_N z) as [|p]; simpl; [discriminate|].
  pose proof (DecimalPos.Unsigned.to_uint_nonnil p) as H.
  destruct (Pos.to_uint p); simpl; try discriminate.
  contradiction H. reflexivity.
Qed.

Lemma repeat_zero_no_point n : count_char (repeat_char "0" n) "." = O.
Proof. induction n; simpl; auto. Qed.

Lemma sub_string_no_point i n s :
  all_digits s = true -> count_char (sub_string i n s) "." = O.
Proof.
  intros H. apply all_digits_no_point. unfold sub_string.
  apply all_digits_substring, H.
Qed.

Lemma format_decimal_points ds n :
  all_digits ds = true -> (count_char (format_decimal ds n) "." <= 1)%nat.
Proof.
  intros H. unfold format_decimal.
  pose proof (all_digits_no_point ds H) as H0.
  pose proof (all_digits_no_point _ (digits_of_all_digits (Z.abs (n - 1))))
    as He.
  repeat match goal with
         | |- context [if ?c then _ else _] => destruct c
         end;
    repeat rewrite count_char_append;
    repeat rewrite sub_string_no_point by exact H;
    rewrite ?H0, ?He, ?repeat_zero_no_point; simpl; lia.
Qed.

Lemma positive_toString_points m e :
  (count_char (positive_toString m e) "." <= 1)%nat.
Proof.
  unfold positive_toString.
  destruct (shortest 17 m e (fraction_of m e) (decade (fraction_of m e) - 1))
    as [s0 t0].
  destruct (strip_zeros 400 s0 t0) as [s1 t1].
  apply format_decimal_points, digits_of_all_digits.
Qed.

Lemma toString_points x : (count_char (toString x) "." <= 1)%nat.
Proof.
  destruct x as [sg|sg| |sg m e]; cbn [toString].
  - simpl; lia.
  - destruct sg; simpl; lia.
  - simpl; lia.
  - destruct sg.
    + rewrite count_char_append.
      pose proof (positive_toString_points m e). simpl count_char at 1. lia.
    + apply positive_toString_points.
Qed.

Lemma leading_digit_append s t :
  leading_digit s = true -> leading_digit (s ++ t) = true.
Proof. destruct s; simpl; [discriminate | auto]. Qed.

Lemma leading_digit_sub_string s n :
  (0 < n)%Z -> leading_digit s = true ->
  leading_digit (sub_string 0 n s) = true.
Proof.
  intros Hn. unfold sub_string. simpl Z.to_nat.
  destruct (Z.to_nat n) as [|k] eqn:E; [lia|].
  destruct s; simpl; [discriminate | auto].
Qed.

Lemma format_decimal_leading_digit ds n :
  leading_digit ds = true -> leading_digit (format_decimal ds n) = true.
Proof.
  intros H. unfold format_decimal.
  destruct ((Z.of_nat (String.length ds) <=? n) && (n <=? 21))%Z.
  { apply leading_digit_append, H. }
  destruct ((0 <? n)%Z) eqn:Hn; simpl.
  - destruct (n <=? 21)%Z.
    + apply leading_digit_append, leading_digit_sub_string; [lia | exact H].
    + destruct ((-6 <? n) && (n <=? 0))%Z; [reflexivity|].
      destruct (Z.of_nat (String.length ds) =? 1)%Z;
        apply leading_digit_append;
        [exact H | apply leading_digit_sub_string; [lia | exact H]].
  - destruct ((-6 <? n) && (n <=? 0))%Z; [reflexivity|].
    destruct (Z.of_nat (String.length ds) =? 1)%Z;
      apply leading_digit_append;
      [exact H | apply leading_digit_sub_string; [lia | exact H]].
Qed.

Lemma positive_toString_leading_digit m e :
  leading_digit (positive_toString m e) = true.
Proof.
  unfold positive_toString.
  destruct (shortest 17 m e (fraction_of m e) (decade (fraction_of m e) - 1))
    as [s0 t0].
  destruct (strip_zeros 400 s0 t0) as [s1 t1].
  apply format_decimal_leading_digit, all_digits_leading;
    [apply digits_of_all_digits | apply digits_of_not_empty].
Qed.

(** No Number has the text "Error". *)
Lemma toString_not_Error x : toString x <> "Error".
Proof.
  destruct x as [sg|sg| |sg m e]; simpl; try discriminate.
  - destruct sg; discriminate.
  - destruct sg; simpl; [discriminate|].
    pose proof (positive_toString_leading_digit m e) as H.
    intros E. rewrite E in H. discriminate H.
Qed.

Lemma num_eq_zero_not_nan x : num_eq x pos_zero = true -> isNaN x = false.
Proof. destruct x; simpl; [reflexivity .. | discriminate | reflexivity]. Qed.

(** ** When [compute] gives "Error" *)

Lemma not_Error_eqb s : s <> "Error" -> str_eq s "Error" = false.
Proof.
  intros H. unfold str_eq. destruct (String.eqb_spec s "Error");
    [contradiction | reflexivity].
Qed.

Lemma compute_Error_inv aStr bStr op :
  compute aStr bStr op = "Error" ->
  isNaN (parseFloat aStr) = false /\ op = DIVISION_SIGN /\
  num_eq (parseFloat bStr) pos_zero = true.
Proof.
  unfold compute.
  destruct (isNaN (parseFloat aStr)) eqn:Ha; [discriminate|].
  destruct (isNaN (parseFloat bStr)) eqn:Hb; [discriminate|]. simpl.
  destruct (str_eq op "+"); [intros H; destruct (toString_not_Error _ H)|].
  destruct (str_eq op "-"); [intros H; destruct (toString_not_Error _ H)|].
  destruct (str_eq op MULTIPLICATION_SIGN);
    [intros H; destruct (toString_not_Error _ H)|].
  destruct (str_eq op DIVISION_SIGN) eqn:Hd.
  - apply String.eqb_eq in Hd.
    destruct (num_eq (parseFloat bStr) pos_zero);
      [auto | intros H; destruct (toString_not_Error _ H)].
  - intros ->. vm_compute in Hb. discriminate Hb.
Qed.

Lemma compute_divide_by_zero aStr bStr :
  isNaN (parseFloat aStr) = false ->
  num_eq (parseFloat bStr) pos_zero = true ->
  compute aStr bStr DIVISION_SIGN = "Error".
Proof.
  intros Ha Hb. unfold compute.
  rewrite Ha, (num_eq_zero_not_nan _ Hb), Hb. reflexivity.
Qed.

(** X1: [compute] gives "Error" for a division whose operands both parse, the
    second one to a zero ([+0] or [-0]), and in no other case: a sum, a
    difference, a product or a quotient by another number is never the text
    "Error", and an operand that does not parse gives "0". *)
Theorem compute_Error_iff aStr bStr op :
  compute aStr bStr op = "Error" <->
  isNaN (parseFloat aStr) = false /\ op = DIVISION_SIGN /\
  num_eq (parseFloat bStr) pos_zero = true.
Proof.
  split; [apply compute_Error_inv|].
  intros (Ha & -> & Hb). apply compute_divide_by_zero; assumption.
Qed.

Lemma compute_Error_iff_witness :
  compute "5" "0.00" DIVISION_SIGN = "Error" /\
  compute "5" "-0" DIVISION_SIGN = "Error".
Proof.
  split; apply compute_Error_iff; vm_compute; repeat split.
Defined.

(** ** When a key sets the error *)

Lemma divides_by_zero_compute s p o :
  previousValue s = Some p -> operator s = Some o ->
  str_eq (compute p (currentValue s) o) "Error" = divides_by_zero s.
Proof.
  intros Hp Ho. unfold divides_by_zero. rewrite Hp, Ho.
  destruct (str_eq (compute p (currentValue s) o) "Error") eqn:E.
  - apply String.eqb_eq, compute_Error_inv in E as (Ha & -> & Hb).
    rewrite Ha, Hb. reflexivity.
  - symmetry. apply not_true_is_false. intros H.
    apply andb_prop in H as [H Hb]. apply andb_prop in H as [Hd Ha].
    apply String.eqb_eq in Hd. subst o.
    apply negb_true_iff in Ha.
    rewrite (compute_divide_by_zero _ _ Ha Hb) in E. discriminate E.
Qed.

Ltac flag He := simpl; rewrite ?He; reflexivity.

Lemma onEquals_error s :
  error s = false -> error (onEquals s) = divides_by_zero s.
Proof.
  intros He. unfold onEquals. rewrite He.
  destruct (previousValue s) as [p|] eqn:Hp;
    [destruct (operator s) as [o|] eqn:Ho|].
  - rewrite (divides_by_zero_compute s p o Hp Ho).
    destruct (divides_by_zero s); [reflexivity | flag He].
  - unfold divides_by_zero. rewrite Hp, Ho. flag He.
  - unfold divides_by_zero. rewrite Hp. flag He.
Qed.

Lemma onOperator_error op s :
  error s = false ->
  error (onOperator op s) = negb (overwrite s) && divides_by_zero s.
Proof.
  intros He. unfold onOperator. rewrite He.
  destruct (previousValue s) as [p|] eqn:Hp;
    [destruct (operator s) as [o|] eqn:Ho|].
  - destruct (overwrite s); [flag He|].
    rewrite (divides_by_zero_compute s p o Hp Ho).
    destruct (divides_by_zero s); [reflexivity | flag He].
  - unfold divides_by_zero. rewrite Hp, Ho, andb_false_r. flag He.
  - unfold divides_by_zero. rewrite Hp, andb_false_r. flag He.
Qed.

(** X2: from a state without error a key sets the error exactly when a
    division by zero is pending and the key evaluates it: the equals key,
    or an operator key pressed after the second operand was entered
    ([overwrite] unset).  The digit, decimal, backspace and clear keys
    never set it. *)
Theorem error_only_by_division_by_zero s k :
  error s = false ->
  error (press s k) =
    match k with
    | KEquals => divides_by_zero s
    | KOperator _ => negb (overwrite s) && divides_by_zero s
    | _ => false
    end.
Proof.
  intros He. destruct k; simpl.
  - unfold onDigit. rewrite He. destruct (overwrite s); flag He.
  - unfold onDecimal. rewrite He. destruct (overwrite s); flag He.
  - apply onOperator_error, He.
  - apply onEquals_error, He.
  - unfold onBackspace. rewrite He. destruct (overwrite s); simpl;
      [reflexivity | flag He].
  - reflexivity.
Qed.

Lemma error_only_by_division_by_zero_witness :
  error (press five_by_zero_pending KEquals) = true /\
  error (press five_by_zero_pending (KOperator Plus)) = true /\
  error (press five_by_zero_pending (KDigit D7)) = false.
Proof.
  split; [|split].
  - rewrite (error_only_by_division_by_zero five_by_zero_pending KEquals);
      vm_compute; reflexivity.
  - rewrite (error_only_by_division_by_zero five_by_zero_pending
               (KOperator Plus)); vm_compute; reflexivity.
  - rewrite (error_only_by_division_by_zero five_by_zero_pending
               (KDigit D7)); vm_compute; reflexivity.
Defined.

(** X3: in a state with the error set the operator keys change nothing, and
    every other key does what it does in the initial state: the error is
    left by any key but an operator. *)
Theorem errored_keys_as_initial s k :
  error s = true ->
  (operator_key k = true -> press s k = s) /\
  (operator_key k = false ->
   press s k = press initial k /\ error (press s k) = false).
Proof.
  intros He. split; intros Hk; destruct k; try discriminate Hk; simpl.
  - unfold onOperator. rewrite He. reflexivity.
  - unfold onDigit. rewrite He. simpl.
    rewrite (sanitize_plain _ (plain_digit d)). split; reflexivity.
  - unfold onDecimal. rewrite He. split; reflexivity.
  - unfold onEquals. rewrite He. split; reflexivity.
  - unfold onBackspace. rewrite He. split; reflexivity.
  - split; reflexivity.
Qed.

Lemma errored_keys_as_initial_witness :
  press five_by_zero (KOperator Times) = five_by_zero /\
  press five_by_zero (KDigit D7) = press initial (KDigit D7) /\
  press five_by_zero KDecimal = press initial KDecimal.
Proof.
  assert (He : error five_by_zero = true) by (vm_compute; reflexivity).
  split; [|split].
  - apply (errored_keys_as_initial five_by_zero (KOperator Times) He).
    reflexivity.
  - apply (errored_keys_as_initial five_by_zero (KDigit D7) He). reflexivity.
  - apply (errored_keys_as_initial five_by_zero KDecimal He). reflexivity.
Defined.

(** ** What every reachable state satisfies *)

Lemma count_char_slice s c :
  (count_char (slice_0_m1 s) c <= count_char s c)%nat.
Proof.
  induction s as [|a r IH]; simpl; [lia|].
  destruct r as [|b r']; [simpl; lia|].
  cbn [count_char] in *. lia.
Qed.

Lemma compute_points aStr bStr op :
  (count_char bStr "." <= 1)%nat ->
  (count_char (compute aStr bStr op) "." <= 1)%nat.
Proof.
  intros Hb. unfold compute.
  repeat match goal with
         | |- context [if ?c then _ else _] => destruct c
         end; try apply toString_points; try exact Hb; simpl; lia.
Qed.

Lemma press_points s k :
  (count_char (currentValue s) "." <= 1)%nat ->
  plain (currentValue s) = true ->
  (count_char (currentValue (press s k)) "." <= 1)%nat.
Proof.
  destruct s as [cv pv o ow er]. simpl. intros Hc Hp.
  destruct k; simpl.
  - unfold onDigit; simpl.
    destruct er; [cbn [currentValue]; rewrite count_char_digit; lia|].
    destruct ow; [cbn [currentValue]; rewrite count_char_digit; lia|].
    cbn [currentValue].
    destruct (str_eq cv "0") eqn:E.
    + rewrite (sanitize_plain _ (plain_digit d)), count_char_digit. lia.
    + assert (Hne : cv <> "0") by (intros ->; discriminate E).
      rewrite (sanitize_plain _ (plain_append _ _ Hp Hne)).
      rewrite count_char_append, count_char_digit. lia.
  - unfold onDecimal; simpl.
    destruct er; [simpl; lia|]. destruct ow; [simpl; lia|]. simpl.
    destruct (includes_char cv ".") eqn:E; [exact Hc|].
    rewrite count_char_append, (includes_char_count _ _ E). simpl. lia.
  - unfold onOperator, errorState; simpl.
    destruct er; [exact Hc|].
    destruct pv, o, ow; try exact Hc.
    case_result; [simpl; lia | apply compute_points, Hc].
  - unfold onEquals, resetAll, errorState; simpl.
    destruct er; [simpl; lia|].
    destruct pv, o; try exact Hc.
    case_result; [simpl; lia | apply compute_points, Hc].
  - unfold onBackspace, resetAll; simpl.
    destruct er; [simpl; lia|]. destruct ow; [simpl; lia|]. simpl.
    destruct (String.length cv <=? 1)%nat; [simpl; lia|].
    destruct (str_eq (slice_0_m1 cv) "-"); [simpl; lia|].
    pose proof (count_char_slice cv "."). lia.
  - simpl. lia.
Qed.

(** X5: the entry of a reachable state has at most one decimal point, whatever
    keys led to it: results of [compute] and entries cut by the backspace
    key included. *)
Theorem reachable_one_decimal_point s :
  reachable s -> (count_char (currentValue s) "." <= 1)%nat.
Proof.
  induction 1 as [|s k Hr IH]; [simpl; lia|].
  apply press_points; [exact IH | apply reachable_plain, Hr].
Qed.

Lemma reachable_one_decimal_point_witness :
  let s := run initial
             [KDigit D1; KDecimal; KDigit D5; KOperator Divide; KDigit D4;
              KEquals; KDecimal; KBackspace; KDecimal; KDigit D2] in
  currentValue s = "0.2" /\ (count_char (currentValue s) "." <= 1)%nat.
Proof.
  split; [vm_compute; reflexivity|].
  apply reachable_one_decimal_point, reachable_run.
Defined.

Lemma onOperator_sign sg s :
  (forall o, operator s = Some o -> exists g, o = sign_string g) ->
  forall o, operator (onOperator (sign_string sg) s) = Some o ->
            exists g, o = sign_string g.
Proof.
  destruct s as [cv pv o ow er]. unfold onOperator, errorState; simpl.
  intros H o'. destruct er; [apply H|].
  destruct pv, o, ow; try case_result; simpl; try discriminate;
    intros [= <-]; exists sg; reflexivity.
Qed.

Lemma press_operator_sign s k :
  (forall o, operator s = Some o -> exists g, o = sign_string g) ->
  forall o, operator (press s k) = Some o -> exists g, o = sign_string g.
Proof.
  intros H. destruct k; try (apply onOperator_sign, H);
    destruct s as [cv pv o ow er]; simpl in *.
  - unfold onDigit; simpl. destruct er; [discriminate|].
    destruct ow; exact H.
  - unfold onDecimal; simpl. destruct er; [discriminate|].
    destruct ow; exact H.
  - unfold onEquals, resetAll, errorState; simpl.
    destruct er; [discriminate|].
    destruct pv, o; try case_result; simpl; try discriminate; exact H.
  - unfold onBackspace, resetAll; simpl. destruct er; [discriminate|].
    destruct ow; exact H.
  - discriminate.
Qed.

Lemma reachable_operator_sign s :
  reachable s ->
  forall o, operator s = Some o -> exists g, o = sign_string g.
Proof.
  induction 1 as [|s k _ IH]; [discriminate|].
  apply press_operator_sign, IH.
Qed.

Lemma press_primed s k :
  (overwrite s = true -> operator s <> None ->
   previousValue s = Some (currentValue s)) ->
  overwrite (press s k) = true -> operator (press s k) <> None ->
  previousValue (press s k) = Some (currentValue (press s k)).
Proof.
  destruct s as [cv pv o ow er]. simpl. intros H.
  destruct k; simpl.
  - unfold onDigit; simpl. destruct er; [discriminate|].
    destruct ow; simpl; discriminate.
  - unfold onDecimal; simpl. destruct er; [discriminate|].
    destruct ow; simpl; discriminate.
  - unfold onOperator, errorState; simpl. destruct er; [exact H|].
    destruct pv, o, ow; try case_result; simpl; try reflexivity;
      intros _ Hn; contradiction Hn; reflexivity.
  - unfold onEquals, resetAll, errorState; simpl.
    destruct er; [discriminate|].
    destruct pv, o; try case_result; simpl; try exact H;
      intros _ Hn; contradiction Hn; reflexivity.
  - unfold onBackspace, resetAll; simpl. destruct er; [discriminate|].
    destruct ow; simpl; discriminate.
  - discriminate.
Qed.

Lemma reachable_primed s :
  reachable s -> overwrite s = true -> operator s <> None ->
  previousValue s = Some (currentValue s).
Proof.
  induction 1 as [|s k _ IH]; [discriminate|].
  apply press_primed, IH.
Qed.

(** X6: in a reachable state the pending operator is one of the four signs (the
    last case of the [switch] in [compute] is never run from the keys), and
    the grid shows one button pressed when an operator is pending and none
    otherwise. *)
Theorem pending_operator_pressed s :
  reachable s ->
  (forall o, operator s = Some o -> known_operator o = true) /\
  List.length (List.filter (fun b => ariaPressed b s) keypad) =
    match operator s with
    | Some _ => 1%nat
    | None => 0%nat
    end.
Proof.
  intros Hr. pose proof (reachable_operator_sign s Hr) as H.
  destruct s as [cv pv o ow er]. simpl in *.
  destruct o as [o|].
  - destruct (H o eq_refl) as [g ->]. split.
    + intros o' [= <-]. destruct g; reflexivity.
    + destruct g; reflexivity.
  - split; [discriminate | reflexivity].
Qed.

Lemma pending_operator_pressed_witness :
  let s := run initial [KDigit D2; KOperator Times; KDigit D3] in
  operator s = Some MULTIPLICATION_SIGN /\
  List.length (List.filter (fun b => ariaPressed b s) keypad) = 1%nat.
Proof.
  split; [reflexivity|].
  apply (pending_operator_pressed
           (run initial [KDigit D2; KOperator Times; KDigit D3])).
  apply reachable_run.
Defined.

(** X7: in a reachable state, right after an operator key ([overwrite] set and
    an operator pending) the pending operand is the entry itself. *)
Theorem operator_primed_operand s :
  reachable s -> overwrite s = true -> operator s <> None ->
  previousValue s = Some (currentValue s).
Proof. apply reachable_primed. Qed.

Lemma operator_primed_operand_witness :
  let s := run initial [KDigit D2; KOperator Plus; KDigit D3;
                        KOperator Times] in
  currentValue s = "5" /\ previousValue s = Some (currentValue s).
Proof.
  split; [vm_compute; reflexivity|].
  apply (operator_primed_operand
           (run initial [KDigit D2; KOperator Plus; KDigit D3;
                         KOperator Times])).
  - apply reachable_run.
  - vm_compute. reflexivity.
  - vm_compute. discriminate.
Defined.

(** X4: a reachable state with the error set is the one error state:
    the entry is "Error", nothing is pending, [overwrite] is set, and
    "Error" is what is displayed. *)
Theorem errored_state_shape s :
  reachable s -> error s = true ->
  s = errorState /\ displayValue s = "Error".
Proof.
  intros Hr He. split; [apply reachable_error_marker; assumption|].
  unfold displayValue. rewrite He. reflexivity.
Qed.

Lemma errored_state_shape_witness :
  reachable five_by_zero /\ five_by_zero = errorState /\
  displayValue five_by_zero = "Error".
Proof.
  assert (Hr : reachable five_by_zero) by apply reachable_run.
  split; [exact Hr|].
  apply (errored_state_shape five_by_zero Hr). vm_compute. reflexivity.
Defined.

(** ** How the keys compose *)

Lemma equals_pending_none s :
  paired s ->
  operator (onEquals s) = None /\ previousValue (onEquals s) = None.
Proof.
  destruct s as [cv pv o ow er]. unfold paired, onEquals; simpl.
  intros [H1 H2]. destruct er; [split; reflexivity|].
  destruct pv as [p|], o as [o|].
  - unfold errorState. case_result; split; reflexivity.
  - exfalso. apply H2; [discriminate | reflexivity].
  - exfalso. apply H1; [discriminate | reflexivity].
  - split; reflexivity.
Qed.

(** X8: after the equals key nothing is pending, in every state in which
    the two pending cells are set together (every reachable state is one),
    whether the key computed a result, set the error, reset it or found
    nothing to do. *)
Theorem equals_leaves_nothing_pending s :
  paired s ->
  operator (onEquals s) = None /\ previousValue (onEquals s) = None.
Proof. apply equals_pending_none. Qed.

Lemma run_paired s ks : paired s -> paired (run s ks).
Proof.
  revert s. induction ks as [|k ks IH]; intros s H; simpl; [exact H|].
  apply IH, press_paired, H.
Qed.

Lemma equals_leaves_nothing_pending_witness :
  let s := run initial [KDigit D2; KOperator Plus; KDigit D3] in
  operator s = Some "+" /\
  operator (onEquals s) = None /\ previousValue (onEquals s) = None.
Proof.
  split; [reflexivity|].
  apply (equals_leaves_nothing_pending
           (run initial [KDigit D2; KOperator Plus; KDigit D3])).
  apply run_paired, paired_initial.
Defined.

Lemma onOperator_shape op s :
  error (onOperator op s) = false ->
  exists r,
    onOperator op s =
      {| currentValue := r; previousValue := Some r; operator := Some op;
         overwrite := true; error := false |}.
Proof.
  destruct s as [cv pv o ow er]. unfold onOperator; simpl.
  destruct er; simpl; [discriminate|].
  destruct pv as [p|], o as [o|], ow; simpl;
    try (intros _; eexists; reflexivity).
  unfold errorState. case_result; simpl; [discriminate|].
  intros _. eexists; reflexivity.
Qed.

(** X9: a second operator key right after a first one only replaces the pending
    operator: nothing is computed, the entry and the pending operand stay
    (so 2 + x 3 = is 2 x 3). *)
Theorem operator_twice_replaces s o1 o2 :
  error (onOperator (sign_string o1) s) = false ->
  let s1 := onOperator (sign_string o1) s in
  onOperator (sign_string o2) s1 =
    {| currentValue := currentValue s1; previousValue := previousValue s1;
       operator := Some (sign_string o2); overwrite := overwrite s1;
       error := error s1 |}.
Proof.
  intros H s1. subst s1.
  destruct (onOperator_shape _ _ H) as [r ->]. reflexivity.
Qed.

Lemma operator_twice_replaces_witness :
  run initial [KDigit D2; KOperator Plus; KOperator Times; KDigit D3;
               KEquals]
  = {| currentValue := "6"; previousValue := None; operator := None;
       overwrite := true; error := false |} /\
  onOperator (sign_string Times) (run initial [KDigit D2; KOperator Plus])
  = {| currentValue := "2"; previousValue := Some "2";
       operator := Some MULTIPLICATION_SIGN; overwrite := true;
       error := false |}.
Proof.
  split; [vm_compute; reflexivity|].
  change (run initial [KDigit D2; KOperator Plus])
    with (onOperator (sign_string Plus) (run initial [KDigit D2])).
  rewrite (operator_twice_replaces (run initial [KDigit D2]) Plus Times);
    vm_compute; reflexivity.
Defined.

(** X10: an operator key followed at once by the equals key applies the operator
    to the entry and itself (5 x = is 25; 5, the division sign and = is 1;
    0, the division sign and = is the error). *)
Theorem operator_then_equals s o :
  error (onOperator (sign_string o) s) = false ->
  let s1 := onOperator (sign_string o) s in
  let r := compute (currentValue s1) (currentValue s1) (sign_string o) in
  onEquals s1 =
    if str_eq r "Error" then errorState
    else {| currentValue := r; previousValue := None; operator := None;
            overwrite := true; error := false |}.
Proof.
  intros H s1. subst s1.
  destruct (onOperator_shape _ _ H) as [r ->]. reflexivity.
Qed.

Lemma operator_then_equals_witness :
  currentValue (run initial [KDigit D5; KOperator Times; KEquals]) = "25" /\
  onEquals (onOperator (sign_string Divide) initial) = errorState.
Proof.
  split; [vm_compute; reflexivity|].
  rewrite (operator_then_equals initial Divide); vm_compute; reflexivity.
Defined.

(** X11: operators are evaluated from left to right: with [p o1 b] pending (no
    error, second operand entered), a further operator key, a digit and the
    equals key give [(p o1 b) o2 d], whatever the two operators are. *)
Theorem chain_evaluates_left_to_right s p o1 o2 d :
  error s = false -> overwrite s = false ->
  previousValue s = Some p -> operator s = Some o1 ->
  compute p (currentValue s) o1 <> "Error" ->
  let r1 := compute p (currentValue s) o1 in
  let r2 := compute r1 (digit_string d) (sign_string o2) in
  run s [KOperator o2; KDigit d; KEquals] =
    if str_eq r2 "Error" then errorState
    else {| currentValue := r2; previousValue := None; operator := None;
            overwrite := true; error := false |}.
Proof.
  destruct s as [cv pv o ow er]. simpl. intros -> -> -> -> Hne.
  unfold onOperator; simpl. rewrite (not_Error_eqb _ Hne).
  unfold onDigit; simpl. unfold onEquals; simpl. reflexivity.
Qed.

Lemma chain_evaluates_left_to_right_witness :
  run (run initial [KDigit D8; KOperator Minus; KDigit D2])
      [KOperator Divide; KDigit D3; KEquals] =
  {| currentValue := "2"; previousValue := None; operator := None;
     overwrite := true; error := false |}.
Proof.
  rewrite (chain_evaluates_left_to_right
             (run initial [KDigit D8; KOperator Minus; KDigit D2])
             "8" "-" Divide D3);
    try (vm_compute; reflexivity).
  vm_compute. discriminate.
Defined.

(** X20: a result can be used at once as the first operand: when the
    equals key does not end in the error, an operator key pressed right
    after it takes the entry (the result) as the pending operand, keeps it
    as the entry and computes nothing. *)
Theorem result_feeds_next_operation s o :
  paired s -> error (onEquals s) = false ->
  let s1 := onEquals s in
  onOperator (sign_string o) s1 =
    {| currentValue := currentValue s1;
       previousValue := Some (currentValue s1);
       operator := Some (sign_string o); overwrite := true;
       error := false |}.
Proof.
  intros Hp He s1. subst s1.
  destruct (equals_pending_none s Hp) as [Ho Hv].
  destruct (onEquals s) as [cv pv o' ow er]. simpl in *. subst.
  reflexivity.
Qed.

Lemma result_feeds_next_operation_witness :
  run initial [KDigit D2; KOperator Plus; KDigit D3; KEquals;
               KOperator Times; KDigit D4; KEquals]
  = {| currentValue := "20"; previousValue := None; operator := None;
       overwrite := true; error := false |} /\
  onOperator (sign_string Times)
    (onEquals (run initial [KDigit D2; KOperator Plus; KDigit D3]))
  = {| currentValue := "5"; previousValue := Some "5";
       operator := Some MULTIPLICATION_SIGN; overwrite := true;
       error := false |}.
Proof.
  split; [vm_compute; reflexivity|].
  rewrite (result_feeds_next_operation
             (run initial [KDigit D2; KOperator Plus; KDigit D3]) Times).
  - vm_compute. reflexivity.
  - apply run_paired, paired_initial.
  - vm_compute. reflexivity.
Defined.

(** ** The backspace key *)

Lemma slice_length s :
  String.length (slice_0_m1 s) = Nat.pred (String.length s).
Proof.
  induction s as [|a r IH]; [reflexivity|].
  destruct r as [|b r']; [reflexivity|].
  cbn [slice_0_m1 String.length] in *. rewrite IH. reflexivity.
Qed.

(** X12: the backspace key never leaves the entry empty, nor a lone minus sign:
    whatever the state, the entry after it has at least one code unit and
    is not "-". *)
Theorem backspace_entry_never_empty s :
  currentValue (onBackspace s) <> EmptyString /\
  currentValue (onBackspace s) <> "-".
Proof.
  destruct s as [cv pv o ow er]. unfold onBackspace, resetAll; simpl.
  destruct er; [split; discriminate|].
  destruct ow; [split; discriminate|]. simpl.
  destruct (String.length cv <=? 1)%nat eqn:El; [split; discriminate|].
  destruct (str_eq (slice_0_m1 cv) "-") eqn:Em; [split; discriminate|].
  split.
  - intros E. apply Nat.leb_gt in El.
    pose proof (slice_length cv) as Hl. rewrite E in Hl. simpl in Hl. lia.
  - intros E. rewrite E in Em. discriminate Em.
Qed.

Lemma onBackspace_calm s : calm (onBackspace s).
Proof.
  destruct s as [cv pv o ow er]. unfold calm, onBackspace, resetAll; simpl.
  destruct er; [split; reflexivity|]. destruct ow; split; reflexivity.
Qed.

Lemma onBackspace_zero s :
  (error s = true \/ overwrite s = true \/
   (String.length (currentValue s) <= 1)%nat) ->
  currentValue (onBackspace s) = "0".
Proof.
  destruct s as [cv pv o ow er]. unfold onBackspace, resetAll; simpl.
  destruct er; [reflexivity|]. destruct ow; [reflexivity|]. simpl.
  intros [H|[H|H]]; try discriminate H.
  apply Nat.leb_le in H. rewrite H. reflexivity.
Qed.

Lemma onBackspace_length s :
  calm s ->
  (String.length (currentValue (onBackspace s))
   <= Nat.max 1 (Nat.pred (String.length (currentValue s))))%nat.
Proof.
  destruct s as [cv pv o ow er]. unfold calm. cbn [error overwrite].
  intros [-> ->]. unfold onBackspace. cbn [error overwrite currentValue].
  destruct (String.length cv <=? 1)%nat; [apply Nat.le_max_l|].
  destruct (str_eq (slice_0_m1 cv) "-"); [apply Nat.le_max_l|].
  rewrite slice_length. apply Nat.le_max_r.
Qed.

Lemma backspaces_calm n : forall s,
  calm s -> (String.length (currentValue s) <= S n)%nat ->
  currentValue (backspaces (S n) s) = "0".
Proof.
  induction n as [|n IH]; intros s Hc Hl.
  - simpl. apply onBackspace_zero. right. right. exact Hl.
  - change (backspaces (S (S n)) s) with (backspaces (S n) (onBackspace s)).
    apply IH; [apply onBackspace_calm|].
    pose proof (onBackspace_length s Hc). lia.
Qed.

(** X13: as many backspace keys as the entry has code units (one at least) bring
    the entry back to "0", from any state. *)
Theorem backspaces_reach_zero s n :
  (1 <= n)%nat -> (String.length (currentValue s) <= n)%nat ->
  currentValue (backspaces n s) = "0".
Proof.
  intros Hn Hl. destruct n as [|n]; [lia|].
  destruct (error s) eqn:He; [|destruct (overwrite s) eqn:Ho].
  3: { apply backspaces_calm; [split; assumption | exact Hl]. }
  all: assert (H0 : currentValue (onBackspace s) = "0")
         by (apply onBackspace_zero; auto);
       destruct n as [|n]; [exact H0|];
       change (backspaces (S (S n)) s)
         with (backspaces (S n) (onBackspace s));
       apply backspaces_calm; [apply onBackspace_calm|];
       rewrite H0; simpl; lia.
Qed.

Lemma backspaces_reach_zero_witness :
  let s := run initial [KDigit D1; KDigit D2; KDecimal; KDigit D5] in
  currentValue s = "12.5" /\ currentValue (backspaces 4 s) = "0".
Proof.
  split; [vm_compute; reflexivity|].
  apply (backspaces_reach_zero
           (run initial [KDigit D1; KDigit D2; KDecimal; KDigit D5]) 4);
    [lia | vm_compute; lia].
Defined.

(** ** Typing an entry *)

Lemma digits_string_append ds1 ds2 :
  digits_string (ds1 ++ ds2)%list = digits_string ds1 ++ digits_string ds2.
Proof.
  induction ds1 as [|d ds1 IH]; simpl; [reflexivity|].
  rewrite IH. destruct d; reflexivity.
Qed.

Lemma append_empty_right (s : string) : s ++ EmptyString = s.
Proof. induction s; simpl; congruence. Qed.

Lemma append_assoc_string (s t u : string) : (s ++ t) ++ u = s ++ (t ++ u).
Proof. induction s; simpl; congruence. Qed.

Lemma append_not_zero s d : s <> EmptyString -> s ++ digit_string d <> "0".
Proof.
  destruct s as [|c r]; [intros H; contradiction H; reflexivity|].
  intros _. destruct r; destruct d; discriminate.
Qed.

Lemma plain_not_empty s : plain s = true -> s <> EmptyString.
Proof. destruct s; [discriminate | discriminate]. Qed.

(** Digits typed after an entry that is not "0" are appended to it. *)
Lemma run_digits_append ds : forall s,
  calm s -> plain (currentValue s) = true -> currentValue s <> "0" ->
  run s (List.map KDigit ds) =
    {| currentValue := currentValue s ++ digits_string ds;
       previousValue := previousValue s; operator := operator s;
       overwrite := false; error := false |}.
Proof.
  induction ds as [|d ds IH]; intros [cv pv o ow er] [He Ho] Hp Hn;
    simpl in *; subst.
  - rewrite append_empty_right. reflexivity.
  - assert (E : onDigit (digit_string d) (mkState cv pv o false false)
                = mkState (cv ++ digit_string d) pv o false false).
    { unfold onDigit, str_eq.
      cbn [error overwrite currentValue previousValue operator].
      rewrite (proj2 (String.eqb_neq cv "0") Hn).
      rewrite (sanitize_plain _ (plain_append _ _ Hp Hn)). reflexivity. }
    rewrite E, IH; simpl.
    + rewrite append_assoc_string. reflexivity.
    + split; reflexivity.
    + apply plain_append; assumption.
    + apply append_not_zero, plain_not_empty, Hp.
Qed.

Lemma includes_char_append s t c :
  includes_char (s ++ t) c = includes_char s c || includes_char t c.
Proof.
  induction s as [|a r IH]; simpl; [reflexivity|].
  rewrite IH. apply orb_assoc.
Qed.

Lemma digits_string_no_point ds : includes_char (digits_string ds) "." = false.
Proof.
  induction ds as [|d ds IH]; simpl; [reflexivity|].
  rewrite includes_char_append, IH. destruct d; reflexivity.
Qed.

Lemma typed_integer_cases ds :
  typed_integer ds = "0" \/
  exists d ds', d <> D0 /\ typed_integer ds = digits_string (d :: ds').
Proof.
  unfold typed_integer. induction ds as [|d ds IH]; [left; reflexivity|].
  destruct d; [exact IH | ..];
    right; eexists; exists ds; (split; [|reflexivity]); discriminate.
Qed.

Lemma typed_integer_plain ds : plain (typed_integer ds) = true.
Proof.
  destruct (typed_integer_cases ds) as [->|(d & ds' & Hd & ->)];
    [reflexivity|].
  destruct d; try reflexivity. contradiction Hd. reflexivity.
Qed.

Lemma typed_integer_no_point ds :
  includes_char (typed_integer ds) "." = false.
Proof.
  destruct (typed_integer_cases ds) as [->|(d & ds' & _ & ->)];
    [reflexivity | apply digits_string_no_point].
Qed.

Lemma run_digits_initial ds :
  run initial (List.map KDigit ds) =
    {| currentValue := typed_integer ds; previousValue := None;
       operator := None; overwrite := false; error := false |}.
Proof.
  induction ds as [|d ds IH]; [reflexivity|].
  destruct d;
    try (change (run initial (List.map KDigit (D0 :: ds)))
           with (run initial (List.map KDigit ds)); exact IH);
    match goal with
    | |- run initial (List.map KDigit (?d :: ds)) = _ =>
        change (run initial (List.map KDigit (d :: ds)))
          with (run (mkState (digit_string d) None None false false)
                    (List.map KDigit ds))
    end;
    rewrite run_digits_append;
    try reflexivity; try (split; reflexivity); discriminate.
Qed.

(** X14: typing from the initial state: digits give the number typed, without
    the zeros it starts with ("0" when there is nothing else); the decimal
    key then adds the point, and the digits after it are all kept. *)
Theorem typed_entry ds1 ds2 :
  currentValue (run initial (List.map KDigit ds1)) = typed_integer ds1 /\
  currentValue
    (run initial (List.map KDigit ds1 ++ KDecimal :: List.map KDigit ds2)%list)
  = typed_integer ds1 ++ "." ++ digits_string ds2.
Proof.
  rewrite run_app, run_digits_initial. split; [reflexivity|].
  change (run ?s (KDecimal :: ?ks)) with (run (onDecimal s) ks).
  unfold onDecimal. cbn [error overwrite currentValue previousValue operator].
  rewrite typed_integer_no_point, run_digits_append.
  - cbn [currentValue]. apply append_assoc_string.
  - split; reflexivity.
  - apply plain_append_point, typed_integer_plain.
  - cbn [currentValue]. intros E.
    pose proof (typed_integer_plain ds1) as Hp.
    destruct (typed_integer ds1) as [|c r]; [discriminate|].
    destruct r; discriminate.
Qed.

(** ** The decimal key and the normalization, twice *)

(** X15: the decimal key pressed twice does what it does pressed once, in every
    state; and after it the entry has a point. *)
Theorem decimal_idempotent s :
  onDecimal (onDecimal s) = onDecimal s /\
  includes_char (currentValue (onDecimal s)) "." = true.
Proof.
  destruct s as [cv pv o ow er]. unfold onDecimal at 2 3 4.
  cbn [error overwrite currentValue previousValue operator].
  destruct er; [split; reflexivity|]. destruct ow; [split; reflexivity|].
  destruct (includes_char cv ".") eqn:E.
  - unfold onDecimal; simpl. rewrite E. split; reflexivity.
  - assert (E' : includes_char (cv ++ ".") "." = true)
      by (rewrite includes_char_append; simpl; apply orb_true_r).
    unfold onDecimal; simpl. rewrite E'. split; reflexivity.
Qed.

Lemma sanitize_result_plain str : plain (sanitizeNumberString str) = true.
Proof.
  unfold sanitizeNumberString, str_eq.
  destruct (String.eqb_spec str EmptyString) as [->|Hn]; [reflexivity|].
  destruct (String.eqb_spec str "0") as [->|H0]; [reflexivity|].
  destruct (startsWith str "0" && negb (startsWith str "0.")
            && (1 <? String.length str)%nat) eqn:E; [apply toString_plain|].
  destruct str as [|c r]; [contradiction Hn; reflexivity|].
  unfold startsWith in E. simpl in E. simpl.
  destruct (Ascii.eqb_spec c "0") as [->|Hc]; [|reflexivity]. simpl.
  destruct r as [|d r']; [reflexivity|]. simpl in E.
  destruct (Ascii.eqb d "."); [reflexivity | discriminate E].
Qed.

(** X16: [sanitizeNumberString] never gives the empty string, and applied to its
    own result it changes nothing, for every string. *)
Theorem sanitize_idempotent str :
  sanitizeNumberString str <> EmptyString /\
  sanitizeNumberString (sanitizeNumberString str) = sanitizeNumberString str.
Proof.
  pose proof (sanitize_result_plain str) as H. split.
  - apply plain_not_empty, H.
  - apply sanitize_plain, H.
Qed.

(** ** The keyboard *)

Lemma digit_test_leading key :
  String.leb "0" key && String.leb key "9" = true ->
  leading_digit key = true.
Proof.
  destruct key as [|c r]; [discriminate|]. intros H.
  destruct c as [[] [] [] [] [] [] [] []]; try reflexivity;
    vm_compute in H; discriminate H.
Qed.

Lemma one_digit c :
  is_digit c = true -> exists d, String c EmptyString = digit_string d.
Proof.
  destruct c as [[] [] [] [] [] [] [] []]; try discriminate; intros _;
    first [ exists D0; reflexivity | exists D1; reflexivity
          | exists D2; reflexivity | exists D3; reflexivity
          | exists D4; reflexivity | exists D5; reflexivity
          | exists D6; reflexivity | exists D7; reflexivity
          | exists D8; reflexivity | exists D9; reflexivity ].
Qed.

(** X17: the keyboard does what the buttons do: every key of the keypad
    has a key of the keyboard that calls the same handler, and a key of the
    keyboard (one code unit, or a name that does not start with a digit)
    either is ignored in every state, state unchanged and default action
    kept, or is one key of the keypad: it calls the handler of that key in
    every state. *)
Theorem keyboard_acts_as_keypad :
  (forall k, exists key, forall s, onKeyDown key s = (press s k, true)) /\
  (forall key,
     String.length key = 1%nat \/ leading_digit key = false ->
     (forall s, onKeyDown key s = (s, false)) \/
     exists k, forall s, onKeyDown key s = (press s k, true)).
Proof.
  split.
  - intros [d| |o| | |].
    + exists (digit_string d). intros s. destruct d; reflexivity.
    + exists ".". reflexivity.
    + destruct o; [exists "+" | exists "-" | exists "*" | exists "/"];
        reflexivity.
    + exists "Enter". reflexivity.
    + exists "Backspace". reflexivity.
    + exists "Escape". reflexivity.
  - intros key H. unfold onKeyDown.
    destruct (String.leb "0" key && String.leb key "9") eqn:T.
    + pose proof (digit_test_leading key T) as Hl.
      destruct H as [H|H]; [|rewrite H in Hl; discriminate Hl].
      destruct key as [|c [|c' r]]; try discriminate H.
      destruct (one_digit c Hl) as [d ->]. right. exists (KDigit d).
      reflexivity.
    + unfold str_eq.
      destruct (String.eqb_spec key ".") as [->|_];
        [right; exists KDecimal; reflexivity|].
      destruct (String.eqb_spec key ",") as [->|_];
        [right; exists KDecimal; reflexivity|].
      destruct (String.eqb_spec key "+") as [->|_];
        [right; exists (KOperator Plus); reflexivity|].
      destruct (String.eqb_spec key "-") as [->|_];
        [right; exists (KOperator Minus); reflexivity|].
      destruct (String.eqb_spec key "*") as [->|_];
        [right; exists (KOperator Times); reflexivity|].
      destruct (String.eqb_spec key "/") as [->|_];
        [right; exists (KOperator Divide); reflexivity|].
      destruct (String.eqb_spec key "Enter") as [->|_];
        [right; exists KEquals; reflexivity|].
      destruct (String.eqb_spec key "=") as [->|_];
        [right; exists KEquals; reflexivity|].
      destruct (String.eqb_spec key "Backspace") as [->|_];
        [right; exists KBackspace; reflexivity|].
      destruct (String.eqb_spec key "Escape") as [->|_];
        [right; exists KClear; reflexivity|].
      left. reflexivity.
Qed.

Lemma keyboard_acts_as_keypad_witness :
  (exists key, forall s, onKeyDown key s = (press s (KOperator Times), true))
  /\ (forall s, onKeyDown "Tab" s = (s, false)).
Proof.
  destruct keyboard_acts_as_keypad as [H1 H2].
  split; [apply H1|].
  destruct (H2 "Tab") as [E|[k E]]; [right; reflexivity | exact E|].
  specialize (E initial).
  change (onKeyDown "Tab" initial) with (initial, false) in E.
  apply (f_equal snd) in E. discriminate E.
Defined.

(** X18: the test for a digit key compares strings, not code units: a key
    string that starts with a digit from 0 to 8 passes it whatever follows
    that digit, and is handed whole to [onDigit]; a string that starts with
    9 passes it only when it is "9", and is ignored otherwise. *)
Theorem keyboard_digit_test c r s :
  is_digit c = true ->
  (c <> "9"%char ->
   onKeyDown (String c r) s = (onDigit (String c r) s, true)) /\
  (c = "9"%char -> r <> EmptyString ->
   onKeyDown (String c r) s = (s, false)).
Proof.
  intros Hc. split.
  - intros H9. unfold onKeyDown.
    destruct c as [[] [] [] [] [] [] [] []]; try discriminate Hc;
      try reflexivity; try (contradiction H9; reflexivity);
      destruct r; reflexivity.
  - intros -> Hr. destruct r as [|c' r']; [contradiction Hr; reflexivity|].
    reflexivity.
Qed.

Lemma keyboard_digit_test_witness :
  onKeyDown "10" initial = (onDigit "10" initial, true) /\
  currentValue (fst (onKeyDown "10" initial)) = "10" /\
  onKeyDown "90" initial = (initial, false).
Proof.
  destruct (keyboard_digit_test "1" "0" initial eq_refl) as [H1 _].
  destruct (keyboard_digit_test "9" "0" initial eq_refl) as [_ H2].
  split; [apply H1; discriminate|].
  split; [rewrite H1 by discriminate; reflexivity|].
  apply H2; [reflexivity | discriminate].
Defined.

(** ** The grid of buttons *)

Ltac some_key :=
  first
    [ exists KClear; intros; reflexivity
    | exists KBackspace; intros; reflexivity
    | exists KEquals; intros; reflexivity
    | exists KDecimal; intros; reflexivity
    | exists (KOperator Plus); intros; reflexivity
    | exists (KOperator Minus); intros; reflexivity
    | exists (KOperator Times); intros; reflexivity
    | exists (KOperator Divide); intros; reflexivity
    | exists (KDigit D0); intros; reflexivity
    | exists (KDigit D1); intros; reflexivity
    | exists (KDigit D2); intros; reflexivity
    | exists (KDigit D3); intros; reflexivity
    | exists (KDigit D4); intros; reflexivity
    | exists (KDigit D5); intros; reflexivity
    | exists (KDigit D6); intros; reflexivity
    | exists (KDigit D7); intros; reflexivity
    | exists (KDigit D8); intros; reflexivity
    | exists (KDigit D9); intros; reflexivity ].

Ltac button_at i :=
  exists (List.nth i keypad (mkButton EmptyString not_pressed onClear));
  split; [apply List.nth_In; simpl; lia | intros; reflexivity].

Ltac some_button i :=
  first [ solve [button_at i]
        | match i with S ?j => some_button j end ].

(** X19: the grid has one button for each key of the keypad, 18 in all: every
    key has a button whose [onClick] is the handler of the key, and every
    button is the button of a key. *)
Theorem keypad_covers_keys :
  (forall k, exists b, List.In b keypad /\ forall s, onClick b s = press s k)
  /\ (forall b, List.In b keypad -> exists k, forall s, onClick b s = press s k)
  /\ List.length keypad = 18%nat.
Proof.
  split; [|split; [|reflexivity]].
  - intros [[]| |[]| | |]; some_button 17%nat.
  - intros b Hin. simpl in Hin.
    repeat (destruct Hin as [<-|Hin]; [some_key|]). contradiction Hin.
Qed.

Lemma keypad_covers_keys_witness :
  exists b, List.In b keypad /\
            forall s, onClick b s = press s (KDigit D7).
Proof. apply keypad_covers_keys. Defined.
